(** * Shan word-frequency dictionary: the converter and the syllable filter

    A shallow embedding of [dict_convert.py] (class
    [ShanDictionaryConverter]) and of [data_verrified.py]
    ([filter_syllables_by_dictionary]), with the properties the
    specification states about them.

    Conventions of the embedding:
    - a Python [str] is the list of its Unicode code points;
    - a JSON object with a fixed shape (a word entry, a syllable entry) is a
      record, one that is read with [in] / [.get] before use (the resource
      itself) is a record of optional fields, and the open-ended [metadata]
      object is a finite map from key to value;
    - a [Counter] is an association list in insertion order, which is the
      order [most_common] falls back to on ties;
    - a raised exception is [None];
    - logging and printing are left out, they never feed back into a result. *)

From Stdlib Require Import ZArith NArith Ascii String Permutation Sorted.
From stdpp Require Import gmap strings list fin_maps.

Local Open Scope Z_scope.

(** ** Strings *)

Abbreviation codepoint := N (only parsing).
Abbreviation str := (list N) (only parsing).

(** The code points of an ASCII literal, to write inputs down. *)
Definition lit (s : string) : str :=
  N_of_ascii <$> list_ascii_of_string s.

(** [str.isspace], which is also what [\s] matches in a [str] pattern. *)
Definition isspace (c : codepoint) : bool :=
  ((9 <=? c) && (c <=? 13) || (28 <=? c) && (c <=? 32)
   || (c =? 133) || (c =? 160) || (c =? 5760)
   || (8192 <=? c) && (c <=? 8202)
   || (c =? 8232) || (c =? 8233) || (c =? 8239) || (c =? 8287)
   || (c =? 12288))%N.

(** [str.strip()]: whitespace removed at both ends. *)
Fixpoint lstrip (s : str) : str :=
  match s with
  | c :: s' => if isspace c then lstrip s' else s
  | [] => []
  end.

Definition strip (s : str) : str := reverse (lstrip (reverse (lstrip s))).

(** [str.split()]: the maximal runs of non-whitespace.  [cur] is the run
    being read, most recent code point first. *)
Fixpoint split_go (cur : str) (s : str) : list str :=
  match s with
  | [] => if cur is [] then [] else [reverse cur]
  | c :: s' =>
      if isspace c
      then (if cur is [] then split_go [] s' else reverse cur :: split_go [] s')
      else split_go (c :: cur) s'
  end.

Definition split (s : str) : list str := split_go [] s.

(** ASCII lower-casing; [str.lower] agrees with it on ASCII strings. *)
Definition ascii_lower (s : str) : str :=
  (λ c, if (65 <=? c) && (c <=? 90) then c + 32 else c)%N <$> s.

(** ** The data model *)

Record WordEntry := mkWord { word : str; wfrequency : Z }.
Record SyllableEntry := mkSyllable { syllable : str; sfrequency : Z }.

Inductive JValue :=
  | JInt (n : Z)
  | JStr (s : string).

Record Resource := mkResource {
  metadata : option (gmap string JValue);
  words : option (list WordEntry);
  syllables : option (list SyllableEntry)
}.

#[global] Instance WordEntry_eq_dec : EqDecision WordEntry.
Proof. solve_decision. Defined.
#[global] Instance SyllableEntry_eq_dec : EqDecision SyllableEntry.
Proof. solve_decision. Defined.
#[global] Instance JValue_eq_dec : EqDecision JValue.
Proof. solve_decision. Defined.

(** [sum(1 for e in l if e["frequency"] > 0)] *)
Definition with_frequency {A} (freq : A → Z) (l : list A) : Z :=
  Z.of_nat (length (filter (λ e, 0 < freq e) l)).

Definition len {A} (l : list A) : Z := Z.of_nat (length l).

(** ** Counters *)

(** A [Counter] in insertion order.  [c[k] += 1] adds one to the entry of
    [k] where it stands, or appends [(k, 1)]. *)
Abbreviation Counter := (list (list N * Z)) (only parsing).

Fixpoint Counter_incr (k : str) (c : Counter) : Counter :=
  match c with
  | [] => [(k, 1)]
  | (k', n) :: c' =>
      if decide (k = k') then (k', n + 1) :: c' else (k', n) :: Counter_incr k c'
  end.

(** [c.get(k, 0)] *)
Fixpoint Counter_get (k : str) (c : Counter) : Z :=
  match c with
  | [] => 0
  | (k', n) :: c' => if decide (k = k') then n else Counter_get k c'
  end.

(** ** Stable sort by descending key

    [list.sort(key=..., reverse=True)] and [sorted(..., reverse=True)] keep
    entries of equal key in their original order. *)
Section sort.
Context {A : Type} (key : A → Z).

Fixpoint insert_desc (x : A) (l : list A) : list A :=
  match l with
  | [] => [x]
  | y :: l' => if decide (key y ≤ key x) then x :: l else y :: insert_desc x l'
  end.

Fixpoint sort_desc (l : list A) : list A :=
  match l with
  | [] => []
  | x :: l' => insert_desc x (sort_desc l')
  end.
End sort.

(** ** [dict_convert.py]: class [ShanDictionaryConverter] *)

(** The fields of [self] that the pipeline reads or writes; the two paths
    only serve file access. *)
Record Converter := mkConverter {
  tokenizer : option (str → option (list str));
  syllable_segmenter : option (str → option (list str));
  dictionary_words : list str;
  word_frequencies : Counter;
  syllable_frequencies : Counter
}.

(** [__init__] *)
Definition init : Converter := mkConverter None None [] [] [].

(** The lines a dictionary file contributes:
    [[line.strip() for line in f if line.strip()]]. *)
Definition stripped_lines (f : list str) : list str :=
  strip <$> filter (λ line, strip line ≠ []) f.

(** [load_dictionary]: [f] is the content of [dict_file], line by line, or
    [None] when the file is missing or cannot be read. *)
Definition load_dictionary (self : Converter) (f : option (list str))
  : Converter * list str :=
  match f with
  | None => (self, [])
  | Some f =>
      let words := stripped_lines f in
      (mkConverter (tokenizer self) (syllable_segmenter self) words
                   (word_frequencies self) (syllable_frequencies self),
       words)
  end.

(** [create_basic_json] *)
Definition create_basic_json (words : list str) : Resource :=
  mkResource
    (Some (<["total_words" := JInt (len words)]>
           (<["source" := JStr "dictionary.txt"]>
            (<["phase" := JStr "basic_conversion"]> ∅))))
    (Some ((λ word, mkWord word 0) <$> words))
    (Some []).

(** The fallback of [tokenize_text]: everything outside the two Shan ranges
    and whitespace becomes a blank, then the text is split on whitespace. *)
Definition is_shan (c : codepoint) : bool :=
  ((4096 <=? c) && (c <=? 4255) || (6688 <=? c) && (c <=? 6831))%N.

Definition fallback_tokenize (text : str) : list str :=
  let cleaned_text := (λ c, if is_shan c || isspace c then c else 32%N) <$> text in
  let tokens := split cleaned_text in
  strip <$> filter (λ token, strip token ≠ []) tokens.

(** [tokenize_text]: the primary tokenizer when there is one and it does not
    raise, the fallback otherwise. *)
Definition tokenize_text (self : Converter) (text : str) : list str :=
  match tokenizer self with
  | Some tk => if tk text is Some tokens then tokens else fallback_tokenize text
  | None => fallback_tokenize text
  end.

(** [segment_syllables]; the fallback is [[word] if word else []]. *)
Definition segment_syllables (self : Converter) (word : str) : list str :=
  let fallback := if word is [] then [] else [word] in
  match syllable_segmenter self with
  | Some seg => if seg word is Some syllables then syllables else fallback
  | None => fallback
  end.

(** The syllables one token is counted under:
    [syllables if syllables else [token]]. *)
Definition counted_syllables (self : Converter) (token : str) : list str :=
  let syllables := segment_syllables self token in
  if syllables is [] then [token] else syllables.

(** The body of the loop over tokens in [analyze_frequency]. *)
Definition count_token (self : Converter) (dict_word_set : gset str)
    (acc : Counter * Counter) (token : str) : Counter * Counter :=
  let '(word_counter, syllable_counter) := acc in
  let word_counter :=
    if decide (token ∈ dict_word_set) then Counter_incr token word_counter
    else word_counter in
  (word_counter,
   foldl (λ c syllable, Counter_incr syllable c) syllable_counter
         (counted_syllables self token)).

(** [analyze_frequency] *)
Definition analyze_frequency (self : Converter) (texts : list str)
  : Counter * Counter :=
  let dict_word_set : gset str := list_to_set (dictionary_words self) in
  foldl (λ acc text,
           foldl (count_token self dict_word_set) acc (tokenize_text self text))
        ([], []) texts.

(** The first loop of [update_json_with_frequencies]:
    [word_entry["frequency"] = word_frequencies.get(word, 0)] on every entry. *)
Definition refreshed (word_frequencies : Counter) (ws : list WordEntry)
  : list WordEntry :=
  (λ e, mkWord (word e) (Counter_get (word e) word_frequencies)) <$> ws.

(** [update_json_with_frequencies]; [basic_json["words"]] and
    [basic_json["metadata"]] raise [KeyError] on a resource without them. *)
Definition update_json_with_frequencies (basic_json : Resource)
    (word_frequencies syllable_frequencies : Counter) : option Resource :=
  match words basic_json with
  | None => None
  | Some ws =>
      let ws := refreshed word_frequencies ws in
      let ws := sort_desc wfrequency ws in
      match metadata basic_json with
      | None => None
      | Some md =>
          let md := <["phase" := JStr "frequency_analysis_complete"]> md in
          let md := <["words_with_frequency" :=
                        JInt (with_frequency wfrequency ws)]> md in
          let md := <["total_syllables" := JInt (len syllable_frequencies)]> md in
          Some (mkResource (Some md) (Some ws) (syllables basic_json))
      end
  end.

(** [generate_syllable_data]; [most_common()] is
    [sorted(items, key=itemgetter(1), reverse=True)]. *)
Definition generate_syllable_data (syllable_frequencies : Counter)
  : list SyllableEntry :=
  (λ '(syllable, freq), mkSyllable syllable freq) <$> sort_desc snd syllable_frequencies.

(** [basic_json["syllables"] = syllable_data] *)
Definition set_syllables (basic_json : Resource)
    (syllable_data : list SyllableEntry) : Resource :=
  mkResource (metadata basic_json) (words basic_json) (Some syllable_data).

Section conversion.
(** The two functions of [shannlp]; [None] is a raised exception. *)
Variable word_tokenize : str → option (list str).
Variable syllable_tokenize : str → option (list str).

(** [initialize_shannlp] *)
Definition initialize_shannlp (self : Converter) : Converter :=
  mkConverter (Some word_tokenize) (Some syllable_tokenize)
              (dictionary_words self) (word_frequencies self)
              (syllable_frequencies self).

(** The converter as [run_conversion] hands it to [analyze_frequency]:
    initialised, with the dictionary of file [f] loaded. *)
Definition loaded (self : Converter) (f : list str) : Converter :=
  (load_dictionary (initialize_shannlp self) (Some f)).1.

(** [run_conversion].  [f] is the dictionary file as [load_dictionary]
    reads it and [dataset] the texts [load_shan_news_dataset] returns
    ([[]] when loading fails).  The second component is the document
    handed to [save_json], [None] when the run stops before saving. *)
Definition run_conversion (self : Converter) (f : option (list str))
    (dataset : list str) : Converter * option Resource :=
  let self := initialize_shannlp self in
  let '(self, words) := load_dictionary self f in
  if words is [] then (self, None) else
  let basic_json := create_basic_json words in
  let texts := dataset in
  if texts is [] then (self, Some basic_json) else
  let '(word_freq, syllable_freq) := analyze_frequency self texts in
  let self := mkConverter (tokenizer self) (syllable_segmenter self)
                          (dictionary_words self) word_freq syllable_freq in
  match update_json_with_frequencies basic_json word_freq syllable_freq with
  | None => (self, None)
  | Some basic_json =>
      let syllable_data := generate_syllable_data syllable_freq in
      (self, Some (set_syllables basic_json syllable_data))
  end.
End conversion.

(** ** [data_verrified.py] *)

Section filter.
(** [str.lower] *)
Variable lower : str → str.

(** [load_dictionary]: the set of stripped, lower-cased lines, [None] when
    the file cannot be read. *)
Definition load_dictionary_set (f : option (list str)) : option (gset str) :=
  match f with
  | None => None
  | Some f =>
      Some (list_to_set ((λ word, lower (strip word)) <$>
                         filter (λ word, strip word ≠ []) f))
  end.

(** The loop over [json_data['syllables']]: each entry is appended to the
    kept or to the removed list. *)
Definition partition_syllables (dictionary_words : gset str)
    (l : list SyllableEntry) : list SyllableEntry * list SyllableEntry :=
  foldl (λ '(filtered_syllables, removed_syllables) syllable_entry,
           let syllable := lower (syllable syllable_entry) in
           if decide (syllable ∈ dictionary_words)
           then (filtered_syllables ++ [syllable_entry], removed_syllables)
           else (filtered_syllables, removed_syllables ++ [syllable_entry]))
        ([], []) l.

(** [filter_syllables_by_dictionary] *)
Definition filter_syllables_by_dictionary (json_data : Resource)
    (dictionary_words : gset str) : Resource :=
  match syllables json_data with
  | None => json_data
  | Some syls =>
      let filtered_syllables := (partition_syllables dictionary_words syls).1 in
      let json_data := set_syllables json_data filtered_syllables in
      match metadata json_data with
      | None => json_data
      | Some md =>
          let total_words := len (default [] (words json_data)) in
          let words_with_frequency :=
            if words json_data is Some ws then with_frequency wfrequency ws else 0 in
          let total_syllables := len filtered_syllables in
          let syllables_with_frequency :=
            with_frequency sfrequency filtered_syllables in
          let md := <["total_words" := JInt total_words]> md in
          let md := <["words_with_frequency" := JInt words_with_frequency]> md in
          let md := <["total_syllables" := JInt total_syllables]> md in
          let md := <["syllables_with_frequency" := JInt syllables_with_frequency]> md in
          let md := <["phase" := JStr "dictionary_filtered"]> md in
          mkResource (Some md) (words json_data) (Some filtered_syllables)
      end
  end.

(** The test of that loop, on one entry. *)
Definition kept (dictionary_words : gset str) (e : SyllableEntry) : Prop :=
  lower (syllable e) ∈ dictionary_words.

#[global] Instance kept_dec dictionary_words e :
  Decision (kept dictionary_words e).
Proof. unfold kept. apply _. Defined.

(** What the filter reports as removed. *)
Definition removed_syllables (json_data : Resource)
    (dictionary_words : gset str) : list SyllableEntry :=
  (partition_syllables dictionary_words (default [] (syllables json_data))).2.
End filter.

(** ** The word-count gate as the specification words it

    The specification says that membership tests are made on the lower-cased
    string.  These two definitions are [count_token] and [analyze_frequency]
    with that one change; they exist only to be compared with the code. *)
Section lowercased_gate.
Variable lower : str → str.

Definition count_token_lowercased (self : Converter) (dict_word_set : gset str)
    (acc : Counter * Counter) (token : str) : Counter * Counter :=
  let '(word_counter, syllable_counter) := acc in
  let word_counter :=
    if decide (lower token ∈ dict_word_set) then Counter_incr token word_counter
    else word_counter in
  (word_counter,
   foldl (λ c syllable, Counter_incr syllable c) syllable_counter
         (counted_syllables self token)).

Definition analyze_frequency_lowercased (self : Converter) (texts : list str)
  : Counter * Counter :=
  let dict_word_set : gset str := list_to_set (dictionary_words self) in
  foldl (λ acc text,
           foldl (count_token_lowercased self dict_word_set) acc
                 (tokenize_text self text))
        ([], []) texts.
End lowercased_gate.

(** ** Inputs for the examples *)

(** Stand-ins for the two [shannlp] functions: split on whitespace, and one
    syllable per token. *)
Definition whitespace_tokenizer (text : str) : option (list str) :=
  Some (split text).
Definition whole_word_segmenter (word : str) : option (list str) :=
  Some [word].

(** A converter that has loaded the one-word dictionary [man]. *)
Definition man_converter : Converter :=
  mkConverter (Some whitespace_tokenizer) (Some whole_word_segmenter)
              [lit "man"] [] [].

(** The same converter with the dictionary of the first scenario of the
    specification. *)
Definition scenario_converter : Converter :=
  mkConverter (Some whitespace_tokenizer) (Some whole_word_segmenter)
              [lit "man"; lit "mankind"] [] [].

(** A resource saved without a frequency pass over syllables: no
    [syllables] key. *)
Definition resource_without_syllables : Resource :=
  mkResource (Some (<["phase" := JStr "basic_conversion"]> ∅))
             (Some [mkWord (lit "man") 3]) None.

(** A resource with syllables and no [metadata] key. *)
Definition resource_without_metadata : Resource :=
  mkResource None (Some [mkWord (lit "man") 3])
             (Some [mkSyllable (lit "xyz") 0; mkSyllable (lit "Man") 5]).

(** The resource of the second scenario of the specification, with a
    metadata object. *)
Definition scenario_resource : Resource :=
  mkResource (Some (<["source" := JStr "dictionary.txt"]> ∅))
             (Some [mkWord (lit "abc") 5; mkWord (lit "man") 0])
             (Some [mkSyllable (lit "abc") 5; mkSyllable (lit "xyz") 0]).

(** [json_data['metadata'][k]], [None] when either key is missing. *)
Definition meta (json_data : Resource) (k : string) : option JValue :=
  md ← metadata json_data; md !! k.

(** Occurrences of [k] in [l]. *)
Definition count_of (k : str) (l : list str) : Z :=
  Z.of_nat (length (filter (λ x, x = k) l)).

(** ** Predicates on strings *)



(** ** The rest of [dict_convert.py] *)

(** A record of the news dataset; a field is [None] when the record has no
    such key. *)
Record Item := mkItem { title : option str; content : option str }.

(** The body of the inner loop of [load_shan_news_dataset]:
    [texts.append(item['title']); texts.append(item['content'])].  [None] is
    the [KeyError] of a record without one of the keys. *)
Definition append_item (texts : option (list str)) (item : Item)
  : option (list str) :=
  texts ← texts; t ← title item; c ← content item; Some (texts ++ [t; c]).

(** [load_shan_news_dataset]: [dataset] is what [load_dataset] returns, the
    splits in the order of [dataset.keys()], or [None] when it raises.  The
    whole body is inside one [try], so any exception gives [[]]. *)
Definition load_shan_news_dataset (dataset : option (list (string * list Item)))
  : list str :=
  match dataset with
  | None => []
  | Some dataset =>
      default [] (foldl (λ texts split, foldl append_item texts split.2)
                        (Some []) dataset)
  end.

(** What [print_summary] logs: the three counts and the two top-five lists.
    [None] is a [KeyError]; the two counts read with [.get(..., 0)] cannot
    raise one. *)
Record Summary := mkSummary {
  summary_total_words : JValue;
  summary_words_with_frequency : JValue;
  summary_total_syllables : JValue;
  summary_top_words : list WordEntry;
  summary_top_syllables : list SyllableEntry
}.

Definition print_summary (data : Resource) : option Summary :=
  md ← metadata data;
  total_words ← md !! "total_words";
  ws ← words data;
  ss ← syllables data;
  Some (mkSummary total_words
                  (default (JInt 0) (md !! "words_with_frequency"))
                  (default (JInt 0) (md !! "total_syllables"))
                  (take 5 ws) (take 5 ss)).

(** [sum(c.values())] and [list(c.keys())] of a counter. *)
Definition Counter_total (c : Counter) : Z := foldr (λ e s, e.2 + s) 0 c.
Definition Counter_keys (c : Counter) : list str := c.*1.

(** The distinct elements of [l] in the order of their first occurrence. *)
Definition first_seen (l : list str) : list str :=
  reverse (remove_dups (reverse l)).

(** ** The rest of [data_verrified.py] *)

(** The JSON file [main] reads: absent, present but not parsable, or parsed. *)
Inductive JsonFile :=
  | JsonMissing
  | JsonInvalid
  | JsonLoaded (json_data : Resource).

Section filter_main.
Variable lower : str → str.

(** [main] of the filter script.  [dictionary_file] is the dictionary file
    line by line, [None] when it is missing or unreadable.  The result is the
    document written to the output file, [None] when [main] returns before
    writing. *)
Definition filter_main (json_file : JsonFile) (dictionary_file : option (list str))
  : option Resource :=
  match json_file with
  | JsonMissing => None
  | _ =>
      match load_dictionary_set lower dictionary_file with
      | None => None
      | Some dictionary_words =>
          match json_file with
          | JsonLoaded json_data =>
              Some (filter_syllables_by_dictionary lower json_data dictionary_words)
          | _ => None
          end
      end
  end.

End filter_main.

(** * Properties *)

(** ** The stable sort *)

Section sort_facts.
Context {A : Type} (key : A → Z).
Implicit Types (x : A) (l : list A).

Lemma insert_desc_Permutation x l : insert_desc key x l ≡ₚ x :: l.
Proof.
  induction l as [|y l IH]; simpl; [done|].
  case_decide; [done|]. by rewrite IH, Permutation_swap.
Qed.

Lemma sort_desc_Permutation l : sort_desc key l ≡ₚ l.
Proof.
  induction l as [|x l IH]; simpl; [done|].
  by rewrite insert_desc_Permutation, IH.
Qed.

Lemma sort_desc_length l : length (sort_desc key l) = length l.
Proof. by rewrite sort_desc_Permutation. Qed.

Lemma insert_desc_sorted x l :
  StronglySorted (λ a b, key b ≤ key a) l →
  StronglySorted (λ a b, key b ≤ key a) (insert_desc key x l).
Proof.
  induction 1 as [|y l Hl IH Hy]; simpl.
  - repeat constructor.
  - case_decide as Hxy.
    + constructor; [by constructor|].
      constructor; [done|].
      eapply Forall_impl; [exact Hy|]. simpl. lia.
    + constructor; [done|].
      rewrite insert_desc_Permutation. constructor; [lia|done].
Qed.

Lemma sort_desc_sorted l :
  StronglySorted (λ a b, key b ≤ key a) (sort_desc key l).
Proof.
  induction l; simpl; [constructor|]. by apply insert_desc_sorted.
Qed.

(** Stability: the entries of any one key come out in the order they went
    in. *)
Lemma insert_desc_stable x l n :
  filter (λ a, key a = n) (insert_desc key x l)
  = filter (λ a, key a = n) (x :: l).
Proof.
  induction l as [|y l IH]; simpl; [done|].
  case_decide as Hxy; [done|].
  rewrite !filter_cons in *.
  repeat case_decide; rewrite IH; try done; lia.
Qed.

Lemma sort_desc_stable l n :
  filter (λ a, key a = n) (sort_desc key l) = filter (λ a, key a = n) l.
Proof.
  induction l as [|x l IH]; simpl; [done|].
  rewrite insert_desc_stable, !filter_cons, IH. done.
Qed.
End sort_facts.

(** ** Counters *)

Lemma count_of_nil k : count_of k [] = 0.
Proof. done. Qed.

Lemma count_of_cons k x l :
  count_of k (x :: l) = (if decide (x = k) then 1 else 0) + count_of k l.
Proof.
  unfold count_of. rewrite filter_cons. case_decide; simpl; lia.
Qed.

Lemma count_of_app k l1 l2 : count_of k (l1 ++ l2) = count_of k l1 + count_of k l2.
Proof. unfold count_of. rewrite filter_app, length_app. lia. Qed.

Lemma count_of_filter (P : list N → Prop) `{!∀ x, Decision (P x)} k l :
  count_of k (filter P l) = if decide (P k) then count_of k l else 0.
Proof.
  induction l as [|x l IH]; [by case_decide|].
  rewrite filter_cons. destruct (decide (P x)) as [Hx|Hx].
  - rewrite !count_of_cons, IH. repeat case_decide; subst; done.
  - rewrite count_of_cons, IH. repeat case_decide; subst; done.
Qed.

Lemma Counter_get_incr k k' c :
  Counter_get k' (Counter_incr k c)
  = Counter_get k' c + (if decide (k = k') then 1 else 0).
Proof.
  induction c as [|[k0 n] c IH]; simpl.
  - repeat case_decide; subst; done.
  - destruct (decide (k = k0)) as [->|Hk]; simpl.
    + repeat case_decide; try lia; congruence.
    + rewrite IH. repeat case_decide; try lia; congruence.
Qed.

Lemma Counter_get_foldl_incr k c l :
  Counter_get k (foldl (λ c x, Counter_incr x c) c l)
  = Counter_get k c + count_of k l.
Proof.
  revert c. induction l as [|x l IH]; intros c; simpl.
  - rewrite count_of_nil. lia.
  - rewrite IH, Counter_get_incr, count_of_cons. lia.
Qed.

Lemma foldl_bind {A B C} (f : A → C → A) (g : B → list C) a (l : list B) :
  foldl (λ acc x, foldl f acc (g x)) a l = foldl f a (l ≫= g).
Proof.
  revert a. induction l as [|x l IH]; intros a; simpl; [done|].
  by rewrite foldl_app, IH.
Qed.

(** ** The frequency pass *)

Section accumulate.
Variable self : Converter.
Variable dict_word_set : gset (list N).

(** One token: the word counter moves only for a dictionary word, the
    syllable counter always does. *)
Lemma count_token_word acc token k :
  Counter_get k (count_token self dict_word_set acc token).1
  = Counter_get k acc.1
    + (if decide (token ∈ dict_word_set ∧ token = k) then 1 else 0).
Proof.
  destruct acc as [wc sc]. simpl.
  destruct (decide (token ∈ dict_word_set)) as [Hin|Hin].
  - rewrite Counter_get_incr. repeat case_decide; try lia; tauto.
  - case_decide; [tauto|lia].
Qed.

Lemma count_token_syllable acc token k :
  Counter_get k (count_token self dict_word_set acc token).2
  = Counter_get k acc.2 + count_of k (counted_syllables self token).
Proof.
  destruct acc as [wc sc]. simpl. apply Counter_get_foldl_incr.
Qed.

Lemma count_tokens_word acc tokens k :
  Counter_get k (foldl (count_token self dict_word_set) acc tokens).1
  = Counter_get k acc.1
    + (if decide (k ∈ dict_word_set) then count_of k tokens else 0).
Proof.
  revert acc. induction tokens as [|t tokens IH]; intros acc; simpl.
  - rewrite count_of_nil. case_decide; lia.
  - rewrite IH, count_token_word, count_of_cons.
    repeat case_decide; try lia; exfalso; intuition (subst; eauto).
Qed.

Lemma count_tokens_syllable acc tokens k :
  Counter_get k (foldl (count_token self dict_word_set) acc tokens).2
  = Counter_get k acc.2 + count_of k (tokens ≫= counted_syllables self).
Proof.
  revert acc. induction tokens as [|t tokens IH]; intros acc.
  - simpl. rewrite count_of_nil. lia.
  - rewrite bind_cons, count_of_app. simpl.
    rewrite IH, count_token_syllable. lia.
Qed.
End accumulate.

Lemma analyze_frequency_tokens self texts :
  analyze_frequency self texts
  = foldl (count_token self (list_to_set (dictionary_words self))) ([], [])
          (texts ≫= tokenize_text self).
Proof. unfold analyze_frequency. apply foldl_bind. Qed.

Lemma analyze_frequency_word self texts k :
  Counter_get k (analyze_frequency self texts).1
  = if decide (k ∈ dictionary_words self)
    then count_of k (texts ≫= tokenize_text self) else 0.
Proof.
  rewrite analyze_frequency_tokens, count_tokens_word. simpl.
  repeat case_decide; try lia; set_solver.
Qed.

Lemma analyze_frequency_syllable self texts k :
  Counter_get k (analyze_frequency self texts).2
  = count_of k ((texts ≫= tokenize_text self) ≫= counted_syllables self).
Proof. rewrite analyze_frequency_tokens, count_tokens_syllable. done. Qed.

(** ** The skeleton *)

(** C2, as stated, fails: a word that occurs twice in the word list gets two
    entries, so the entries are not free of duplicate word strings. *)
Lemma create_basic_json_keeps_duplicates :
  words (create_basic_json [lit "man"; lit "man"])
  = Some [mkWord (lit "man") 0; mkWord (lit "man") 0]
  ∧ ¬ NoDup (word <$> [mkWord (lit "man") 0; mkWord (lit "man") 0]).
Proof.
  split; [reflexivity|].
  intros Hdup. apply NoDup_cons_1_1 in Hdup. apply Hdup. left.
Qed.

Lemma skeleton_entries_words (ws : list (list N)) :
  word <$> ((λ w, mkWord w 0) <$> ws) = ws.
Proof. rewrite <- list_fmap_compose. apply list_fmap_id. Qed.

Lemma skeleton_entries_zero (ws : list (list N)) :
  Forall (λ e, wfrequency e = 0) ((λ w, mkWord w 0) <$> ws).
Proof. apply Forall_fmap. by apply Forall_true. Qed.

Lemma skeleton_entries_count (ws : list (list N)) w :
  length (filter (λ e, word e = w) ((λ w, mkWord w 0) <$> ws))
  = length (filter (λ x, x = w) ws).
Proof.
  induction ws as [|x ws IH]; [done|].
  rewrite fmap_cons, !filter_cons. simpl.
  case_decide; simpl; by rewrite IH.
Qed.

(** C2, amended: [create_basic_json] makes one entry per element of the word
    list, in the order of the list and with frequency 0; a word string has as
    many entries as it has occurrences in the list, so the entries are free of
    duplicate word strings exactly when the list is. *)
Theorem create_basic_json_entries (ws : list (list N)) :
  ∃ entries,
    words (create_basic_json ws) = Some entries
    ∧ word <$> entries = ws
    ∧ length entries = length ws
    ∧ Forall (λ e, wfrequency e = 0) entries
    ∧ (∀ w, length (filter (λ e, word e = w) entries)
            = length (filter (λ x, x = w) ws))
    ∧ (NoDup (word <$> entries) ↔ NoDup ws).
Proof.
  exists ((λ w, mkWord w 0) <$> ws).
  split_and!; try done.
  - apply skeleton_entries_words.
  - by rewrite length_fmap.
  - apply skeleton_entries_zero.
  - apply skeleton_entries_count.
  - by rewrite skeleton_entries_words.
Qed.

Lemma create_basic_json_meta ws :
  meta (create_basic_json ws) "total_words" = Some (JInt (len ws))
  ∧ meta (create_basic_json ws) "phase" = Some (JStr "basic_conversion")
  ∧ meta (create_basic_json ws) "source" = Some (JStr "dictionary.txt")
  ∧ meta (create_basic_json ws) "words_with_frequency" = None
  ∧ meta (create_basic_json ws) "total_syllables" = None
  ∧ meta (create_basic_json ws) "syllables_with_frequency" = None.
Proof. unfold meta. simpl. split_and!; by simplify_map_eq. Qed.

(** ** The dictionary filter *)

Section filter_facts.
Variable lower : list N → list N.
Variable dictionary_words : gset (list N).

Abbreviation kept := (kept lower dictionary_words).

Lemma partition_syllables_filter (l : list SyllableEntry) :
  partition_syllables lower dictionary_words l
  = (filter kept l, filter (λ e, ¬ kept e) l).
Proof.
  unfold partition_syllables.
  enough (H : ∀ a b,
    foldl (λ '(filtered_syllables, removed_syllables) syllable_entry,
             if decide (lower (syllable syllable_entry) ∈ dictionary_words)
             then (filtered_syllables ++ [syllable_entry], removed_syllables)
             else (filtered_syllables, removed_syllables ++ [syllable_entry]))
          (a, b) l
    = (a ++ filter kept l, b ++ filter (λ e, ¬ kept e) l)) by apply (H [] []).
  induction l as [|e l IH]; intros a b; simpl.
  - by rewrite !app_nil_r.
  - rewrite !filter_cons. unfold kept at 1 3.
    destruct (decide (lower (syllable e) ∈ dictionary_words)) as [Hin|Hin].
    + rewrite IH, decide_False by tauto. by rewrite <- app_assoc.
    + rewrite IH, decide_True by tauto. by rewrite <- app_assoc.
Qed.

Lemma filter_kept_idemp (l : list SyllableEntry) :
  filter kept (filter kept l) = filter kept l.
Proof.
  rewrite list_filter_filter. apply list_filter_iff. tauto.
Qed.

(** The shape of the result when the resource has syllables. *)
Lemma filter_syllables_unfold json_data syls :
  syllables json_data = Some syls →
  filter_syllables_by_dictionary lower json_data dictionary_words
  = let filtered_syllables := filter kept syls in
    mkResource
      ((λ md : gmap string JValue,
          <["phase" := JStr "dictionary_filtered"]>
          (<["syllables_with_frequency" :=
               JInt (with_frequency sfrequency filtered_syllables)]>
           (<["total_syllables" := JInt (len filtered_syllables)]>
            (<["words_with_frequency" :=
                 JInt (if words json_data is Some ws
                       then with_frequency wfrequency ws else 0)]>
             (<["total_words" := JInt (len (default [] (words json_data)))]>
              md))))) <$> metadata json_data)
      (words json_data) (Some filtered_syllables).
Proof.
  destruct json_data as [md ws ss]. simpl. intros ->.
  unfold filter_syllables_by_dictionary. simpl.
  rewrite partition_syllables_filter. by destruct md.
Qed.
End filter_facts.

Lemma filter_syllables_absent lower json_data dictionary_words :
  syllables json_data = None →
  filter_syllables_by_dictionary lower json_data dictionary_words = json_data.
Proof.
  intros Hs. unfold filter_syllables_by_dictionary. by rewrite Hs.
Qed.

(** C8: a resource without a [syllables] key comes back as it went in, with
    every field it had (metadata and phase included); the missing key is not
    an error, and nothing is reported as removed. *)
Theorem filter_without_syllables lower json_data dictionary_words :
  syllables json_data = None →
  filter_syllables_by_dictionary lower json_data dictionary_words = json_data
  ∧ removed_syllables lower json_data dictionary_words = [].
Proof.
  intros Hs. split; [by apply filter_syllables_absent|].
  unfold removed_syllables. by rewrite Hs.
Qed.

Lemma filter_without_syllables_witness :
  syllables resource_without_syllables = None
  ∧ filter_syllables_by_dictionary ascii_lower resource_without_syllables
      {[lit "man"]} = resource_without_syllables.
Proof.
  split; [reflexivity|].
  apply (filter_without_syllables ascii_lower resource_without_syllables).
  reflexivity.
Defined.

(** C9: on a resource with syllables the filter leaves the words as they
    are; the new syllables are the entries that pass the test, unchanged and
    in their original order; of the metadata only the four counters and the
    phase are written. *)
Theorem filter_frame lower json_data dictionary_words syls :
  syllables json_data = Some syls →
  let result := filter_syllables_by_dictionary lower json_data dictionary_words in
  words result = words json_data
  ∧ syllables result = Some (filter (kept lower dictionary_words) syls)
  ∧ filter (kept lower dictionary_words) syls `sublist_of` syls
  ∧ (∀ e, e ∈ filter (kept lower dictionary_words) syls
          ↔ lower (syllable e) ∈ dictionary_words ∧ e ∈ syls)
  ∧ (∀ k, k ∉ ["total_words"; "words_with_frequency"; "total_syllables";
               "syllables_with_frequency"; "phase"] →
          meta result k = meta json_data k).
Proof.
  intros Hs result. subst result.
  rewrite (filter_syllables_unfold _ _ _ _ Hs). simpl.
  split_and!; try done.
  - apply sublist_filter.
  - intros e. by rewrite list_elem_of_filter.
  - intros k Hk. unfold meta. simpl.
    destruct (metadata json_data) as [md|]; [simpl|done].
    rewrite !lookup_insert_ne; [done|..]; intros <-; apply Hk; set_solver.
Qed.

Lemma filter_frame_witness :
  syllables scenario_resource
  = Some [mkSyllable (lit "abc") 5; mkSyllable (lit "xyz") 0]
  ∧ words (filter_syllables_by_dictionary ascii_lower scenario_resource
             {[lit "abc"]})
    = words scenario_resource.
Proof.
  split; [reflexivity|].
  apply (filter_frame ascii_lower scenario_resource {[lit "abc"]}
           [mkSyllable (lit "abc") 5; mkSyllable (lit "xyz") 0]).
  reflexivity.
Defined.

(** C10: with syllables but without a [metadata] key, the syllables are
    still replaced by the kept entries and no metadata is created: the result
    has no counters and no phase. *)
Theorem filter_without_metadata lower json_data dictionary_words syls :
  syllables json_data = Some syls →
  metadata json_data = None →
  let result := filter_syllables_by_dictionary lower json_data dictionary_words in
  syllables result = Some (filter (kept lower dictionary_words) syls)
  ∧ metadata result = None
  ∧ words result = words json_data
  ∧ (∀ k, meta result k = None).
Proof.
  intros Hs Hm result. subst result.
  rewrite (filter_syllables_unfold _ _ _ _ Hs). unfold meta. simpl.
  by rewrite Hm.
Qed.

Lemma filter_without_metadata_witness :
  (syllables resource_without_metadata
   = Some [mkSyllable (lit "xyz") 0; mkSyllable (lit "Man") 5]
   ∧ metadata resource_without_metadata = None)
  ∧ syllables (filter_syllables_by_dictionary ascii_lower
                 resource_without_metadata {[lit "man"]})
    = Some (filter (kept ascii_lower {[lit "man"]})
              [mkSyllable (lit "xyz") 0; mkSyllable (lit "Man") 5])
  ∧ metadata (filter_syllables_by_dictionary ascii_lower
                resource_without_metadata {[lit "man"]}) = None.
Proof.
  split; [split; reflexivity|].
  pose proof (filter_without_metadata ascii_lower resource_without_metadata
                {[lit "man"]}
                [mkSyllable (lit "xyz") 0; mkSyllable (lit "Man") 5]
                eq_refl eq_refl) as H.
  split; apply H.
Defined.

Example filter_without_metadata_run :
  filter_syllables_by_dictionary ascii_lower resource_without_metadata
    {[lit "man"]}
  = mkResource None (Some [mkWord (lit "man") 3])
               (Some [mkSyllable (lit "Man") 5]).
Proof. vm_compute. reflexivity. Qed.

(** C6: filtering twice with one dictionary set gives what filtering once
    gives. *)
Theorem filter_idempotent lower json_data dictionary_words :
  filter_syllables_by_dictionary lower
    (filter_syllables_by_dictionary lower json_data dictionary_words)
    dictionary_words
  = filter_syllables_by_dictionary lower json_data dictionary_words.
Proof.
  destruct (syllables json_data) as [syls|] eqn:Hs.
  - rewrite (filter_syllables_unfold _ _ _ _ Hs). simpl.
    erewrite filter_syllables_unfold by reflexivity. simpl.
    rewrite filter_kept_idemp. f_equal.
    destruct (metadata json_data) as [md|]; [simpl|done].
    f_equal. apply map_eq. intros k.
    rewrite !lookup_insert. by repeat case_decide.
  - rewrite (filter_syllables_absent _ json_data _ Hs).
    by apply filter_syllables_absent.
Qed.

(** ** The merge of the counts into the resource *)

Lemma update_json_unfold basic_json wf sf ws md :
  words basic_json = Some ws →
  metadata basic_json = Some md →
  update_json_with_frequencies basic_json wf sf
  = let ws' := sort_desc wfrequency (refreshed wf ws) in
    Some (mkResource
            (Some (<["total_syllables" := JInt (len sf)]>
                   (<["words_with_frequency" :=
                        JInt (with_frequency wfrequency ws')]>
                    (<["phase" := JStr "frequency_analysis_complete"]> md))))
            (Some ws') (syllables basic_json)).
Proof.
  intros Hw Hm. unfold update_json_with_frequencies. by rewrite Hw, Hm.
Qed.

Lemma refreshed_words wf ws : word <$> refreshed wf ws = word <$> ws.
Proof. unfold refreshed. by rewrite <- list_fmap_compose. Qed.

Lemma refreshed_frequency wf ws :
  Forall (λ e, wfrequency e = Counter_get (word e) wf) (refreshed wf ws).
Proof. unfold refreshed. apply Forall_fmap. by apply Forall_true. Qed.

Lemma generate_syllable_data_length sf :
  length (generate_syllable_data sf) = length sf.
Proof.
  unfold generate_syllable_data. by rewrite length_fmap, sort_desc_length.
Qed.

(** ** The whole run *)

Section run.
Variable word_tokenize : list N → option (list (list N)).
Variable syllable_tokenize : list N → option (list (list N)).

Abbreviation loaded := (loaded word_tokenize syllable_tokenize).

Lemma run_conversion_no_corpus self f :
  stripped_lines f ≠ [] →
  (run_conversion word_tokenize syllable_tokenize self (Some f) []).2
  = Some (create_basic_json (stripped_lines f)).
Proof.
  intros Hne. unfold run_conversion. simpl.
  by destruct (stripped_lines f).
Qed.

Lemma run_conversion_with_corpus self f dataset :
  stripped_lines f ≠ [] →
  dataset ≠ [] →
  let counts := analyze_frequency (loaded self f) dataset in
  ∃ r,
    update_json_with_frequencies (create_basic_json (stripped_lines f))
      counts.1 counts.2 = Some r
    ∧ (run_conversion word_tokenize syllable_tokenize self (Some f) dataset).2
      = Some (set_syllables r (generate_syllable_data counts.2)).
Proof.
  intros Hne Hd counts. subst counts.
  unfold run_conversion, loaded. simpl.
  destruct (stripped_lines f) as [|w ws] eqn:Hw; [done|].
  destruct dataset as [|t ts]; [done|].
  destruct (analyze_frequency _ (t :: ts)) as [wc sc] eqn:Ha.
  erewrite update_json_unfold by reflexivity. simpl.
  eexists; split; reflexivity.
Qed.

(** In a run over a corpus every dictionary word ends up with the number of
    its occurrences among the tokens of the corpus. *)
Lemma run_conversion_frequencies self f dataset :
  stripped_lines f ≠ [] →
  dataset ≠ [] →
  let tokens := dataset ≫= tokenize_text (loaded self f) in
  ∃ r ws,
    (run_conversion word_tokenize syllable_tokenize self (Some f) dataset).2
    = Some r
    ∧ words r = Some ws
    ∧ word <$> ws ≡ₚ stripped_lines f
    ∧ Forall (λ e, wfrequency e = count_of (word e) tokens) ws.
Proof.
  intros Hne Hd tokens.
  destruct (run_conversion_with_corpus self f dataset Hne Hd)
    as (r & Hu & ->).
  erewrite update_json_unfold in Hu by reflexivity.
  cbn zeta in Hu. injection Hu as <-.
  eexists _, _. split; [reflexivity|]. split; [reflexivity|].
  set (wc := (analyze_frequency (loaded self f) dataset).1).
  pose proof (sort_desc_Permutation wfrequency
                (refreshed wc ((λ w, mkWord w 0) <$> stripped_lines f))) as Hp.
  split.
  - by rewrite Hp, refreshed_words, skeleton_entries_words.
  - rewrite Hp. unfold refreshed. rewrite <- list_fmap_compose.
    apply Forall_fmap, Forall_forall. intros w Hin. simpl.
    subst wc. rewrite analyze_frequency_word.
    by rewrite decide_True.
Qed.
End run.

(** C7: with a dictionary that has words and a corpus that yields no text,
    the run saves the skeleton as it was built: phase [basic_conversion], no
    syllables, every frequency 0.  The run ends with a document, not with an
    error. *)
Theorem run_conversion_empty_corpus word_tokenize syllable_tokenize self f :
  stripped_lines f ≠ [] →
  ∃ r entries,
    (run_conversion word_tokenize syllable_tokenize self (Some f) []).2 = Some r
    ∧ r = create_basic_json (stripped_lines f)
    ∧ meta r "phase" = Some (JStr "basic_conversion")
    ∧ syllables r = Some []
    ∧ words r = Some entries
    ∧ word <$> entries = stripped_lines f
    ∧ Forall (λ e, wfrequency e = 0) entries.
Proof.
  intros Hne.
  exists (create_basic_json (stripped_lines f)),
         ((λ w, mkWord w 0) <$> stripped_lines f).
  split_and!;
    first [ by apply run_conversion_no_corpus
          | apply create_basic_json_meta
          | apply skeleton_entries_words
          | apply skeleton_entries_zero
          | done ].
Qed.

Lemma run_conversion_empty_corpus_witness :
  stripped_lines [lit "man "; lit ""; lit "mankind"] ≠ []
  ∧ ∃ r entries,
      (run_conversion whitespace_tokenizer whole_word_segmenter init
         (Some [lit "man "; lit ""; lit "mankind"]) []).2 = Some r
      ∧ r = create_basic_json (stripped_lines [lit "man "; lit ""; lit "mankind"])
      ∧ meta r "phase" = Some (JStr "basic_conversion")
      ∧ syllables r = Some []
      ∧ words r = Some entries
      ∧ word <$> entries = stripped_lines [lit "man "; lit ""; lit "mankind"]
      ∧ Forall (λ e, wfrequency e = 0) entries.
Proof.
  split; [by vm_compute|].
  apply (run_conversion_empty_corpus whitespace_tokenizer whole_word_segmenter
           init [lit "man "; lit ""; lit "mankind"]).
  by vm_compute.
Defined.

Example stripped_lines_run :
  stripped_lines [lit "man "; lit ""; lit "mankind"] = [lit "man"; lit "mankind"].
Proof. vm_compute. reflexivity. Qed.

(** C5: [update_json_with_frequencies] gives every word entry the frequency
    [word_frequencies.get(word, 0)], sorts the entries by descending
    frequency, keeps entries of equal frequency in the order they had, and
    neither adds nor removes an entry. *)
Theorem update_json_with_frequencies_words basic_json wf sf ws md :
  words basic_json = Some ws →
  metadata basic_json = Some md →
  ∃ r ws',
    update_json_with_frequencies basic_json wf sf = Some r
    ∧ words r = Some ws'
    ∧ Forall (λ e, wfrequency e = Counter_get (word e) wf) ws'
    ∧ StronglySorted (λ a b, wfrequency b ≤ wfrequency a) ws'
    ∧ (∀ n, filter (λ e, wfrequency e = n) ws'
            = filter (λ e, wfrequency e = n) (refreshed wf ws))
    ∧ word <$> refreshed wf ws = word <$> ws
    ∧ ws' ≡ₚ refreshed wf ws
    ∧ word <$> ws' ≡ₚ word <$> ws
    ∧ length ws' = length ws.
Proof.
  intros Hw Hm. rewrite (update_json_unfold _ wf sf _ _ Hw Hm). simpl.
  eexists _, _. split; [reflexivity|]. split; [reflexivity|].
  pose proof (sort_desc_Permutation wfrequency (refreshed wf ws)) as Hp.
  split_and!.
  - rewrite Hp. apply refreshed_frequency.
  - apply sort_desc_sorted.
  - intros n. apply sort_desc_stable.
  - apply refreshed_words.
  - done.
  - by rewrite Hp, refreshed_words.
  - rewrite Hp. unfold refreshed. by rewrite length_fmap.
Qed.

Lemma update_json_with_frequencies_words_witness :
  (words (create_basic_json [lit "a"; lit "man"; lit "b"; lit "mankind"])
   = Some [mkWord (lit "a") 0; mkWord (lit "man") 0; mkWord (lit "b") 0;
           mkWord (lit "mankind") 0]
   ∧ metadata (create_basic_json [lit "a"; lit "man"; lit "b"; lit "mankind"])
     = Some (<["total_words" := JInt 4]>
             (<["source" := JStr "dictionary.txt"]>
              (<["phase" := JStr "basic_conversion"]> ∅))))
  ∧ ∃ r ws',
      update_json_with_frequencies
        (create_basic_json [lit "a"; lit "man"; lit "b"; lit "mankind"])
        [(lit "mankind", 2); (lit "man", 2)] [] = Some r
      ∧ words r = Some ws'
      ∧ Forall (λ e, wfrequency e
                     = Counter_get (word e) [(lit "mankind", 2); (lit "man", 2)])
               ws'.
Proof.
  split; [split; reflexivity|].
  destruct (update_json_with_frequencies_words
              (create_basic_json [lit "a"; lit "man"; lit "b"; lit "mankind"])
              [(lit "mankind", 2); (lit "man", 2)] [] _ _ eq_refl eq_refl)
    as (r & ws' & Hr & Hws & Hf & _).
  exists r, ws'. split; [exact Hr|]. split; [exact Hws|exact Hf].
Defined.

Example update_json_with_frequencies_run :
  words <$> update_json_with_frequencies
    (create_basic_json [lit "a"; lit "man"; lit "b"; lit "mankind"])
    [(lit "mankind", 2); (lit "man", 2)] []
  = Some (Some [mkWord (lit "man") 2; mkWord (lit "mankind") 2;
                mkWord (lit "a") 0; mkWord (lit "b") 0]).
Proof. vm_compute. reflexivity. Qed.

(** ** The metadata counters *)

(** C1, as stated, fails for the builder.  After a run over the corpus
    [man man] the document has one syllable entry, of frequency 2, and a
    [total_syllables] of 1, but no [syllables_with_frequency] at all; and
    [update_json_with_frequencies] on its own returns a resource whose
    [total_syllables] is 1 while its syllables are still the empty list of
    the skeleton. *)
Lemma builder_writes_no_syllables_with_frequency :
  (∃ r,
     (run_conversion whitespace_tokenizer whole_word_segmenter init
        (Some [lit "man"]) [lit "man man"]).2 = Some r
     ∧ syllables r = Some [mkSyllable (lit "man") 2]
     ∧ meta r "total_syllables" = Some (JInt 1)
     ∧ meta r "syllables_with_frequency" = None
     ∧ meta r "syllables_with_frequency"
       ≠ Some (JInt (with_frequency sfrequency [mkSyllable (lit "man") 2])))
  ∧ (∃ r,
       update_json_with_frequencies (create_basic_json [lit "man"])
         [(lit "man", 2)] [(lit "man", 2)] = Some r
       ∧ syllables r = Some []
       ∧ meta r "total_syllables" = Some (JInt 1)
       ∧ meta r "total_syllables" ≠ Some (JInt (len (@nil SyllableEntry)))
       ∧ meta r "syllables_with_frequency" = None).
Proof.
  split.
  - eexists. split; [vm_compute; reflexivity|].
    split_and!; by vm_compute.
  - eexists. split; [vm_compute; reflexivity|].
    split_and!; by vm_compute.
Qed.

(** C1, amended.  The filter, on a resource that has syllables and metadata,
    writes all four counters from the entries it returns.
    [update_json_with_frequencies] writes two counters, [words_with_frequency]
    from the re-sorted words and [total_syllables] as the size of the syllable
    counter; it leaves [total_words], [syllables_with_frequency] and the
    syllables as they were.  In a run over a corpus, where the syllables are
    then set from that same counter, [total_syllables] is their number,
    [total_words] and [words_with_frequency] agree with the words, and there
    is no [syllables_with_frequency]. *)
Theorem metadata_counters lower word_tokenize syllable_tokenize :
  (∀ json_data dictionary_words syls md,
     syllables json_data = Some syls →
     metadata json_data = Some md →
     let r := filter_syllables_by_dictionary lower json_data dictionary_words in
     ∃ ss,
       syllables r = Some ss
       ∧ meta r "total_syllables" = Some (JInt (len ss))
       ∧ meta r "syllables_with_frequency"
         = Some (JInt (with_frequency sfrequency ss))
       ∧ meta r "total_words" = Some (JInt (len (default [] (words r))))
       ∧ meta r "words_with_frequency"
         = Some (JInt (with_frequency wfrequency (default [] (words r))))
       ∧ meta r "phase" = Some (JStr "dictionary_filtered"))
  ∧ (∀ basic_json wf sf ws md,
       words basic_json = Some ws →
       metadata basic_json = Some md →
       ∃ r ws',
         update_json_with_frequencies basic_json wf sf = Some r
         ∧ words r = Some ws'
         ∧ syllables r = syllables basic_json
         ∧ meta r "words_with_frequency"
           = Some (JInt (with_frequency wfrequency ws'))
         ∧ meta r "total_syllables" = Some (JInt (len sf))
         ∧ meta r "phase" = Some (JStr "frequency_analysis_complete")
         ∧ meta r "total_words" = meta basic_json "total_words"
         ∧ meta r "syllables_with_frequency"
           = meta basic_json "syllables_with_frequency")
  ∧ (∀ self f dataset,
       stripped_lines f ≠ [] →
       dataset ≠ [] →
       ∃ r ws ss,
         (run_conversion word_tokenize syllable_tokenize self (Some f) dataset).2
         = Some r
         ∧ words r = Some ws
         ∧ syllables r = Some ss
         ∧ meta r "total_syllables" = Some (JInt (len ss))
         ∧ meta r "total_words" = Some (JInt (len ws))
         ∧ meta r "words_with_frequency"
           = Some (JInt (with_frequency wfrequency ws))
         ∧ meta r "phase" = Some (JStr "frequency_analysis_complete")
         ∧ meta r "syllables_with_frequency" = None).
Proof.
  split_and!.
  - intros json_data d syls md Hs Hm r. subst r.
    rewrite (filter_syllables_unfold _ _ _ _ Hs). cbn zeta.
    eexists. split; [reflexivity|]. unfold meta. cbn [metadata words].
    rewrite Hm. cbn [fmap option_fmap option_map mbind option_bind].
    split_and!; simplify_map_eq; try done.
    by destruct (words json_data).
  - intros basic_json wf sf ws md Hw Hm.
    rewrite (update_json_unfold _ wf sf _ _ Hw Hm). cbn zeta.
    eexists _, _. split; [reflexivity|]. split; [reflexivity|].
    unfold meta. cbn [metadata syllables]. rewrite Hm.
    cbn [mbind option_bind].
    split_and!; by simplify_map_eq.
  - intros self f dataset Hne Hd.
    destruct (run_conversion_with_corpus word_tokenize syllable_tokenize
                self f dataset Hne Hd) as (r & Hu & ->).
    erewrite update_json_unfold in Hu by reflexivity.
    cbn zeta in Hu. injection Hu as <-.
    eexists _, _, _. split; [reflexivity|].
    unfold meta, set_syllables. cbn [metadata syllables words].
    cbn [mbind option_bind].
    split_and!; simplify_map_eq; try done.
    + unfold len. by rewrite generate_syllable_data_length.
    + unfold len, refreshed.
      by rewrite sort_desc_length, !length_fmap.
Qed.

Lemma metadata_counters_witness :
  (∃ ss,
     syllables (filter_syllables_by_dictionary ascii_lower scenario_resource
                  {[lit "abc"]}) = Some ss
     ∧ meta (filter_syllables_by_dictionary ascii_lower scenario_resource
               {[lit "abc"]}) "total_syllables" = Some (JInt (len ss))
     ∧ meta (filter_syllables_by_dictionary ascii_lower scenario_resource
               {[lit "abc"]}) "syllables_with_frequency"
       = Some (JInt (with_frequency sfrequency ss)))
  ∧ (∃ r ss,
       (run_conversion whitespace_tokenizer whole_word_segmenter init
          (Some [lit "man"]) [lit "man man"]).2 = Some r
       ∧ syllables r = Some ss
       ∧ meta r "total_syllables" = Some (JInt (len ss))
       ∧ meta r "syllables_with_frequency" = None).
Proof.
  destruct (metadata_counters ascii_lower whitespace_tokenizer
              whole_word_segmenter) as (Hfilter & _ & Hrun).
  split.
  - destruct (Hfilter scenario_resource {[lit "abc"]} _ _ eq_refl eq_refl)
      as (ss & Hs & Ht & Hf & _).
    exists ss. split; [exact Hs|]. split; [exact Ht|exact Hf].
  - destruct (Hrun init [lit "man"] [lit "man man"]) as
      (r & ws & ss & Hr & _ & Hs & Ht & _ & _ & _ & Hn);
      [by vm_compute|by vm_compute|].
    exists r, ss. split; [exact Hr|]. split; [exact Hs|].
    split; [exact Ht|exact Hn].
Defined.

Example scenario_filter_run :
  let r := filter_syllables_by_dictionary ascii_lower scenario_resource
             {[lit "abc"]} in
  syllables r = Some [mkSyllable (lit "abc") 5]
  ∧ meta r "total_syllables" = Some (JInt 1)
  ∧ meta r "syllables_with_frequency" = Some (JInt 1)
  ∧ meta r "total_words" = Some (JInt 2)
  ∧ meta r "words_with_frequency" = Some (JInt 1)
  ∧ meta r "source" = Some (JStr "dictionary.txt")
  ∧ removed_syllables ascii_lower scenario_resource {[lit "abc"]}
    = [mkSyllable (lit "xyz") 0].
Proof. vm_compute. split_and!; reflexivity. Qed.

(** ** The frequency pass, as the specification states it *)

(** C4: in [analyze_frequency] a token adds one to its own word count exactly
    when it is in the dictionary set, and always adds its syllables to the
    syllable counts, the token itself standing in when segmentation returns
    nothing.  So after the pass a word's count is the number of its
    occurrences among the recognised tokens of the corpus, and that is the
    frequency [update_json_with_frequencies] gives its entry. *)
Theorem analyze_frequency_counts self texts :
  let tokens := texts ≫= tokenize_text self in
  let dict_word_set : gset (list N) := list_to_set (dictionary_words self) in
  let recognised := filter (λ t, t ∈ dictionary_words self) tokens in
  let counts := analyze_frequency self texts in
  (∀ acc token k,
     Counter_get k (count_token self dict_word_set acc token).1
     = Counter_get k acc.1
       + (if decide (token ∈ dictionary_words self ∧ token = k) then 1 else 0))
  ∧ (∀ acc token k,
       Counter_get k (count_token self dict_word_set acc token).2
       = Counter_get k acc.2 + count_of k (counted_syllables self token))
  ∧ (∀ token,
       counted_syllables self token
       = if segment_syllables self token is [] then [token]
         else segment_syllables self token)
  ∧ (∀ w, Counter_get w counts.1
          = if decide (w ∈ dictionary_words self) then count_of w tokens else 0)
  ∧ (∀ w, Counter_get w counts.1 = count_of w recognised)
  ∧ (∀ s, Counter_get s counts.2
          = count_of s (tokens ≫= counted_syllables self))
  ∧ (∀ basic_json ws md,
       words basic_json = Some ws →
       metadata basic_json = Some md →
       ∃ r ws',
         update_json_with_frequencies basic_json counts.1 counts.2 = Some r
         ∧ words r = Some ws'
         ∧ word <$> ws' ≡ₚ word <$> ws
         ∧ Forall (λ e, wfrequency e = count_of (word e) recognised) ws').
Proof.
  intros tokens dict_word_set recognised counts.
  assert (Hcount : ∀ w, Counter_get w counts.1 = count_of w recognised).
  { intros w. subst counts recognised tokens.
    rewrite analyze_frequency_word.
    by rewrite (count_of_filter (λ t, t ∈ dictionary_words self)). }
  split_and!.
  - intros acc token k. subst dict_word_set. rewrite count_token_word.
    repeat case_decide; try done; exfalso;
      rewrite elem_of_list_to_set in *; tauto.
  - intros acc token k. apply count_token_syllable.
  - intros token. unfold counted_syllables.
    by destruct (segment_syllables self token).
  - intros w. apply analyze_frequency_word.
  - exact Hcount.
  - intros s. apply analyze_frequency_syllable.
  - intros basic_json ws md Hw Hm.
    rewrite (update_json_unfold _ _ _ _ _ Hw Hm). cbn zeta.
    eexists _, _. split; [reflexivity|]. split; [reflexivity|].
    pose proof (sort_desc_Permutation wfrequency (refreshed counts.1 ws)) as Hp.
    split.
    + by rewrite Hp, refreshed_words.
    + rewrite Hp. eapply Forall_impl; [apply refreshed_frequency|].
      intros e He. simpl in He. by rewrite He, Hcount.
Qed.

Lemma analyze_frequency_counts_witness :
  Counter_get (lit "man")
    (analyze_frequency scenario_converter [lit "man man mankind"; lit "men"]).1
  = count_of (lit "man")
      (filter (λ t, t ∈ dictionary_words scenario_converter)
         ([lit "man man mankind"; lit "men"] ≫= tokenize_text scenario_converter))
  ∧ Counter_get (lit "men")
      (analyze_frequency scenario_converter [lit "man man mankind"; lit "men"]).2
    = count_of (lit "men")
        (([lit "man man mankind"; lit "men"] ≫= tokenize_text scenario_converter)
           ≫= counted_syllables scenario_converter).
Proof.
  pose proof (analyze_frequency_counts scenario_converter
                [lit "man man mankind"; lit "men"]) as H.
  cbv zeta in H. destruct H as (_ & _ & _ & _ & Hw & Hs & _).
  split; [apply Hw|apply Hs].
Defined.

(** The first scenario of the specification, with a token that is not a
    dictionary word added to the corpus. *)
Example scenario_run :
  ∃ r,
    (run_conversion whitespace_tokenizer whole_word_segmenter init
       (Some [lit "man"; lit "mankind"]) [lit "mankind man man"; lit "men"]).2
    = Some r
    ∧ words r = Some [mkWord (lit "man") 2; mkWord (lit "mankind") 1]
    ∧ syllables r = Some [mkSyllable (lit "man") 2; mkSyllable (lit "mankind") 1;
                          mkSyllable (lit "men") 1]
    ∧ meta r "words_with_frequency" = Some (JInt 2)
    ∧ meta r "total_syllables" = Some (JInt 3)
    ∧ meta r "total_words" = Some (JInt 2).
Proof.
  eexists. split; [vm_compute; reflexivity|]. split_and!; by vm_compute.
Qed.

(** The segmenter's fallback returns nothing for the empty token, which is
    then counted as its own syllable. *)
Example empty_token_run :
  segment_syllables init [] = [] ∧ counted_syllables init [] = [[]].
Proof. split; reflexivity. Qed.

(** ** Case in the membership tests *)

(** C3, as stated, fails for the word-count gate: with the dictionary word
    [man], the token [Man] is not counted by [analyze_frequency], and it
    would be if the test were made on the lower-cased token. *)
Lemma analyze_frequency_is_case_sensitive :
  tokenize_text man_converter (lit "Man") = [lit "Man"]
  ∧ ascii_lower (lit "Man") = lit "man"
  ∧ Counter_get (lit "Man") (analyze_frequency man_converter [lit "Man"]).1 = 0
  ∧ Counter_get (lit "Man")
      (analyze_frequency_lowercased ascii_lower man_converter [lit "Man"]).1 = 1.
Proof. split_and!; vm_compute; reflexivity. Qed.

(** C3, amended: the filter tests the lower-cased syllable string against
    the dictionary set, whose members [load_dictionary] of the filter script
    lower-cased when it built the set; the word-count gate of
    [analyze_frequency] tests the token as it is against the dictionary words
    as they were loaded. *)
Theorem membership_tests lower json_data dict_set syls self texts :
  syllables json_data = Some syls →
  (∃ ss,
     syllables (filter_syllables_by_dictionary lower json_data dict_set)
     = Some ss
     ∧ ∀ e, e ∈ ss ↔ e ∈ syls ∧ lower (syllable e) ∈ dict_set)
  ∧ (∀ f w,
       w ∈ default ∅ (load_dictionary_set lower (Some f))
       ↔ ∃ line, line ∈ f ∧ strip line ≠ [] ∧ w = lower (strip line))
  ∧ (∀ acc token k,
       Counter_get k
         (count_token self (list_to_set (dictionary_words self)) acc token).1
       = Counter_get k acc.1
         + (if decide (token ∈ dictionary_words self ∧ token = k)
            then 1 else 0))
  ∧ (∀ k, Counter_get k (analyze_frequency self texts).1
          = if decide (k ∈ dictionary_words self)
            then count_of k (texts ≫= tokenize_text self) else 0).
Proof.
  intros Hs. split_and!.
  - rewrite (filter_syllables_unfold _ _ _ _ Hs). cbn zeta.
    eexists. split; [reflexivity|].
    intros e. rewrite list_elem_of_filter. unfold kept. tauto.
  - intros f w. simpl. rewrite elem_of_list_to_set, list_elem_of_fmap.
    split.
    + intros (line & -> & Hin). apply list_elem_of_filter in Hin.
      exists line. tauto.
    + intros (line & Hin & Hne & ->). exists line.
      split; [done|]. by apply list_elem_of_filter.
  - intros acc token k. rewrite count_token_word.
    repeat case_decide; try done; exfalso;
      rewrite elem_of_list_to_set in *; tauto.
  - intros k. apply analyze_frequency_word.
Qed.

Lemma membership_tests_witness :
  syllables resource_without_metadata
  = Some [mkSyllable (lit "xyz") 0; mkSyllable (lit "Man") 5]
  ∧ Counter_get (lit "Man") (analyze_frequency man_converter [lit "Man"]).1
    = (if decide (lit "Man" ∈ dictionary_words man_converter)
       then count_of (lit "Man") ([lit "Man"] ≫= tokenize_text man_converter)
       else 0).
Proof.
  split; [reflexivity|].
  apply (membership_tests ascii_lower resource_without_metadata {[lit "man"]}
           [mkSyllable (lit "xyz") 0; mkSyllable (lit "Man") 5]
           man_converter [lit "Man"]).
  reflexivity.
Defined.

(** * Further properties of the code *)

(** ** Whitespace *)








(** ** Loading the dictionary *)

Lemma stripped_lines_spec f w :
  w ∈ stripped_lines f ↔ ∃ line, line ∈ f ∧ strip line ≠ [] ∧ w = strip line.
Proof.
  unfold stripped_lines. rewrite list_elem_of_fmap. split.
  - intros (line & -> & Hin). apply list_elem_of_filter in Hin.
    exists line. tauto.
  - intros (line & Hin & Hne & ->). exists line.
    split; [done|]. by apply list_elem_of_filter.
Qed.




Section run_outcome.
Variable word_tokenize : list N → option (list (list N)).
Variable syllable_tokenize : list N → option (list (list N)).

Lemma run_conversion_no_words self dataset f :
  (load_dictionary (initialize_shannlp word_tokenize syllable_tokenize self) f).2
  = [] →
  (run_conversion word_tokenize syllable_tokenize self f dataset).2 = None.
Proof.
  unfold run_conversion.
  destruct (load_dictionary _ f) as [self' ws]. simpl. by intros ->.
Qed.

Lemma run_conversion_some self dataset f :
  stripped_lines f ≠ [] →
  is_Some (run_conversion word_tokenize syllable_tokenize self (Some f) dataset).2.
Proof.
  intros Hne. destruct dataset as [|t ts].
  - rewrite run_conversion_no_corpus by done. by eexists.
  - destruct (run_conversion_with_corpus word_tokenize syllable_tokenize
                self f (t :: ts) Hne) as (r & _ & ->); [done|]. by eexists.
Qed.
End run_outcome.

(** X2: [run_conversion] hands a document to [save_json] exactly when the
    dictionary file is readable and has a line that is not blank; with a
    missing file, an empty file or a file of blank lines it stops without
    output, whatever the corpus. *)
Theorem run_conversion_output word_tokenize syllable_tokenize self f dataset :
  is_Some (run_conversion word_tokenize syllable_tokenize self f dataset).2
  ↔ ∃ lines line, f = Some lines ∧ line ∈ lines ∧ strip line ≠ [].
Proof.
  split.
  - intros Hs. destruct f as [lines|].
    + destruct (stripped_lines lines) as [|w ws] eqn:Hw.
      * rewrite run_conversion_no_words in Hs by done. by destruct Hs.
      * assert (Hin : w ∈ stripped_lines lines) by (rewrite Hw; left).
        apply stripped_lines_spec in Hin as (line & Hin & Hne & _).
        by exists lines, line.
    + rewrite run_conversion_no_words in Hs by done. by destruct Hs.
  - intros (lines & line & -> & Hin & Hne).
    apply run_conversion_some. intros Hnil.
    assert (Hw : strip line ∈ stripped_lines lines).
    { apply stripped_lines_spec. by exists line. }
    rewrite Hnil in Hw. by apply elem_of_nil in Hw.
Qed.

(** ** The fallback tokenizer *)











Example fallback_tokenize_run :
  fallback_tokenize (lit "ab " ++ [4096; 4097; 33; 6700; 160; 4255]%N ++ lit "!")
  = [[4096; 4097]; [6700]; [4255]]%N.
Proof. vm_compute. reflexivity. Qed.

(** ** Counters as multisets of what was counted *)

(** [Counter(l)] built one increment at a time. *)
Abbreviation counted l := (foldl (λ c x, Counter_incr x c) [] l).

Lemma Counter_keys_incr k c :
  Counter_keys (Counter_incr k c)
  = if decide (k ∈ Counter_keys c) then Counter_keys c else Counter_keys c ++ [k].
Proof.
  unfold Counter_keys. induction c as [|[k0 n] c IH]; [done|].
  cbn [Counter_incr]. destruct (decide (k = k0)) as [->|Hne].
  - rewrite !fmap_cons. cbn [fst]. rewrite decide_True by left. done.
  - rewrite !fmap_cons, IH. cbn [fst].
    destruct (decide (k ∈ c.*1)) as [Hin|Hin].
    + rewrite decide_True by by right. done.
    + rewrite decide_False; [done|].
      intros Hin'. apply elem_of_cons in Hin' as [?|?]; done.
Qed.

Lemma Counter_incr_NoDup k c :
  NoDup (Counter_keys c) → NoDup (Counter_keys (Counter_incr k c)).
Proof.
  intros Hc. rewrite Counter_keys_incr. case_decide; [done|].
  apply NoDup_app. split_and!; [done| |apply NoDup_singleton].
  intros x Hx Hx'. apply list_elem_of_singleton in Hx'. by subst.
Qed.

Lemma Counter_incr_positive k c :
  Forall (λ e, 0 < e.2) c → Forall (λ e, 0 < e.2) (Counter_incr k c).
Proof.
  induction 1 as [|[k0 n] c Hn Hc IH]; simpl.
  - repeat constructor.
  - case_decide; constructor; simpl in *; try done; lia.
Qed.

Lemma Counter_total_incr k c :
  Counter_total (Counter_incr k c) = Counter_total c + 1.
Proof.
  induction c as [|[k0 n] c IH]; simpl; [done|].
  case_decide; simpl; lia.
Qed.

Lemma Counter_get_absent k c : k ∉ Counter_keys c → Counter_get k c = 0.
Proof.
  unfold Counter_keys. induction c as [|[k0 n] c IH]; simpl; [done|].
  intros Hk. apply not_elem_of_cons in Hk as [Hne Hk].
  rewrite decide_False by done. auto.
Qed.

(** In a counter with distinct keys, [get] reads the entry of the key. *)
Lemma Counter_get_entry k n c :
  NoDup (Counter_keys c) → (k, n) ∈ c → Counter_get k c = n.
Proof.
  unfold Counter_keys. induction c as [|[k0 n0] c IH]; simpl.
  - intros _ Hin. by apply elem_of_nil in Hin.
  - intros Hnd Hin. apply NoDup_cons in Hnd as [Hk0 Hnd].
    apply elem_of_cons in Hin as [Heq|Hin].
    + injection Heq as -> ->. by rewrite decide_True.
    + rewrite decide_False; [auto|].
      intros ->. apply Hk0. apply list_elem_of_fmap. by exists (k0, n).
Qed.

Lemma count_of_pos k l : 0 < count_of k l ↔ k ∈ l.
Proof.
  induction l as [|x l IH]; simpl.
  - rewrite count_of_nil, elem_of_nil. lia.
  - rewrite count_of_cons, elem_of_cons.
    pose proof (Zle_0_nat (length (filter (λ y, y = k) l))) as Hnn.
    fold (count_of k l) in Hnn.
    destruct (decide (x = k)) as [->|Hne]; [split; [auto|lia]|].
    rewrite Z.add_0_l, IH. split; [auto|].
    intros [Heq|Hin]; [congruence|done].
Qed.

Lemma counted_snoc l x : counted (l ++ [x]) = Counter_incr x (counted l).
Proof. by rewrite foldl_app. Qed.

Lemma counted_get k l : Counter_get k (counted l) = count_of k l.
Proof. by rewrite Counter_get_foldl_incr. Qed.

Lemma counted_NoDup l : NoDup (Counter_keys (counted l)).
Proof.
  induction l as [|x l IH] using rev_ind; [constructor|].
  rewrite counted_snoc. by apply Counter_incr_NoDup.
Qed.

Lemma counted_positive l : Forall (λ e, 0 < e.2) (counted l).
Proof.
  induction l as [|x l IH] using rev_ind; [constructor|].
  rewrite counted_snoc. by apply Counter_incr_positive.
Qed.

Lemma counted_total l : Counter_total (counted l) = Z.of_nat (length l).
Proof.
  induction l as [|x l IH] using rev_ind; [done|].
  rewrite counted_snoc, Counter_total_incr, IH, length_app. simpl. lia.
Qed.

Lemma counted_keys l : Counter_keys (counted l) = first_seen l.
Proof.
  unfold first_seen. induction l as [|x l IH] using rev_ind; [done|].
  rewrite counted_snoc, Counter_keys_incr, IH, reverse_app.
  change (reverse [x] ++ reverse l) with (x :: reverse l).
  cbn [remove_dups].
  destruct (decide_rel elem_of x (reverse l)) as [Hin|Hin].
  - rewrite decide_True; [done|].
    by rewrite elem_of_reverse, elem_of_remove_dups.
  - rewrite decide_False; [by rewrite reverse_cons|].
    by rewrite elem_of_reverse, elem_of_remove_dups.
Qed.

Lemma counted_keys_elem k l : k ∈ Counter_keys (counted l) ↔ k ∈ l.
Proof.
  rewrite counted_keys. unfold first_seen.
  by rewrite elem_of_reverse, elem_of_remove_dups, elem_of_reverse.
Qed.

(** The two counters of a pass are the counters of two lists. *)
Lemma count_tokens_counted (self : Converter) (d : gset (list N))
    (tokens : list (list N)) wc sc :
  foldl (count_token self d) (wc, sc) tokens
  = (foldl (λ c x, Counter_incr x c) wc (filter (λ t, t ∈ d) tokens),
     foldl (λ c x, Counter_incr x c) sc (tokens ≫= counted_syllables self)).
Proof.
  revert wc sc. induction tokens as [|t tokens IH]; intros wc sc; [done|].
  rewrite filter_cons, bind_cons, foldl_app. simpl.
  rewrite IH. by destruct (decide (t ∈ d)).
Qed.

Lemma analyze_frequency_counted self texts :
  analyze_frequency self texts
  = (counted (filter (λ t, t ∈ dictionary_words self) (texts ≫= tokenize_text self)),
     counted ((texts ≫= tokenize_text self) ≫= counted_syllables self)).
Proof.
  rewrite analyze_frequency_tokens, count_tokens_counted. f_equal.
  f_equal. apply list_filter_iff. intros t. apply elem_of_list_to_set.
Qed.

(** ** What the frequency pass leaves in its counters *)

Lemma counted_syllables_nonempty self token : counted_syllables self token ≠ [].
Proof.
  unfold counted_syllables. by destruct (segment_syllables self token).
Qed.

Lemma bind_length_le {A B} (f : A → list B) (l : list A) :
  (∀ x, f x ≠ []) → (length l ≤ length (l ≫= f))%nat.
Proof.
  intros Hf. induction l as [|x l IH]; [done|].
  rewrite bind_cons, length_app. simpl.
  specialize (Hf x). destruct (f x); [done|]. simpl. lia.
Qed.

(** X4: after [analyze_frequency] the keys of the word counter are the
    dictionary words that occur as tokens, each once and in the order in which
    they were first met, and the keys of the syllable counter are the counted
    syllables in first-seen order; no key is repeated and every count is at
    least 1, so a word that never occurs has no entry rather than a zero. *)
Theorem analyze_frequency_keys self texts :
  let tokens := texts ≫= tokenize_text self in
  let recognised := filter (λ t, t ∈ dictionary_words self) tokens in
  let all_syllables := tokens ≫= counted_syllables self in
  let counts := analyze_frequency self texts in
  Counter_keys counts.1 = first_seen recognised
  ∧ Counter_keys counts.2 = first_seen all_syllables
  ∧ NoDup (Counter_keys counts.1)
  ∧ NoDup (Counter_keys counts.2)
  ∧ Forall (λ e, 0 < e.2) counts.1
  ∧ Forall (λ e, 0 < e.2) counts.2
  ∧ (∀ k, k ∈ Counter_keys counts.1 ↔ k ∈ dictionary_words self ∧ k ∈ tokens)
  ∧ (∀ k, k ∈ Counter_keys counts.2 ↔ k ∈ all_syllables).
Proof.
  intros tokens recognised all_syllables counts.
  subst counts. rewrite analyze_frequency_counted. simpl.
  fold tokens. fold recognised. fold all_syllables.
  split_and!.
  - apply counted_keys.
  - apply counted_keys.
  - apply counted_NoDup.
  - apply counted_NoDup.
  - apply counted_positive.
  - apply counted_positive.
  - intros k. rewrite counted_keys_elem. subst recognised.
    by rewrite list_elem_of_filter.
  - intros k. apply counted_keys_elem.
Qed.

(** X5: the word counts add up to the number of tokens that are dictionary
    words, which is at most the number of tokens; the syllable counts add up
    to the number of syllables counted, which is at least the number of
    tokens, since every token is counted under at least one syllable. *)
Theorem analyze_frequency_totals self texts :
  let tokens := texts ≫= tokenize_text self in
  let counts := analyze_frequency self texts in
  Counter_total counts.1
  = len (filter (λ t, t ∈ dictionary_words self) tokens)
  ∧ Counter_total counts.1 ≤ len tokens
  ∧ Counter_total counts.2 = len (tokens ≫= counted_syllables self)
  ∧ len tokens ≤ Counter_total counts.2.
Proof.
  intros tokens counts. subst counts.
  rewrite analyze_frequency_counted. simpl. fold tokens.
  rewrite !counted_total. unfold len. split_and!; try done.
  - apply inj_le, length_filter.
  - apply inj_le, bind_length_le, counted_syllables_nonempty.
Qed.

Lemma count_of_Permutation k l1 l2 : l1 ≡ₚ l2 → count_of k l1 = count_of k l2.
Proof. unfold count_of. by intros ->. Qed.

(** X6: the counts of a corpus are the sums of the counts of its parts, and
    they do not depend on the order of the texts: for every key, the pass over
    [texts1 ++ texts2] reads the sum of the two passes, and two orderings of
    one corpus read the same. *)
Theorem analyze_frequency_shards self texts1 texts2 :
  (∀ k, Counter_get k (analyze_frequency self (texts1 ++ texts2)).1
        = Counter_get k (analyze_frequency self texts1).1
          + Counter_get k (analyze_frequency self texts2).1)
  ∧ (∀ k, Counter_get k (analyze_frequency self (texts1 ++ texts2)).2
          = Counter_get k (analyze_frequency self texts1).2
            + Counter_get k (analyze_frequency self texts2).2)
  ∧ (∀ texts k,
       texts ≡ₚ texts1 →
       Counter_get k (analyze_frequency self texts).1
       = Counter_get k (analyze_frequency self texts1).1
       ∧ Counter_get k (analyze_frequency self texts).2
         = Counter_get k (analyze_frequency self texts1).2).
Proof.
  split_and!.
  - intros k. rewrite !analyze_frequency_word, bind_app, count_of_app.
    case_decide; lia.
  - intros k. rewrite !analyze_frequency_syllable, !bind_app, count_of_app.
    done.
  - intros texts k Hp.
    rewrite !analyze_frequency_word, !analyze_frequency_syllable.
    split.
    + case_decide; [|done]. apply count_of_Permutation. by rewrite Hp.
    + apply count_of_Permutation. by rewrite Hp.
Qed.

Lemma counted_syllables_fallback self token :
  syllable_segmenter self = None
  ∨ (∃ seg, syllable_segmenter self = Some seg ∧ seg token = None) →
  counted_syllables self token = [token].
Proof.
  unfold counted_syllables, segment_syllables.
  intros [->|(seg & -> & ->)]; by destruct token.
Qed.

Lemma bind_singleton {A} (f : A → list A) (l : list A) :
  Forall (λ x, f x = [x]) l → l ≫= f = l.
Proof.
  induction 1 as [|x l Hx Hl IH]; [done|].
  by rewrite bind_cons, Hx, IH.
Qed.

(** X7: without a syllable segmenter, or with one that raises on every
    token, each token is counted as its own single syllable, the empty token
    included: the syllable counter is then the counter of the tokens. *)
Theorem analyze_frequency_without_segmenter self texts :
  syllable_segmenter self = None
  ∨ (∃ seg, syllable_segmenter self = Some seg ∧ ∀ token, seg token = None) →
  let tokens := texts ≫= tokenize_text self in
  (∀ token, counted_syllables self token = [token])
  ∧ (∀ s, Counter_get s (analyze_frequency self texts).2 = count_of s tokens)
  ∧ Counter_keys (analyze_frequency self texts).2 = first_seen tokens
  ∧ (∀ w, w ∈ dictionary_words self →
          Counter_get w (analyze_frequency self texts).1
          = Counter_get w (analyze_frequency self texts).2).
Proof.
  intros Hseg tokens.
  assert (Hone : ∀ token, counted_syllables self token = [token]).
  { intros token. apply counted_syllables_fallback.
    destruct Hseg as [?|(seg & ? & ?)]; eauto. }
  assert (Hall : tokens ≫= counted_syllables self = tokens).
  { apply bind_singleton, Forall_forall. auto. }
  split_and!.
  - done.
  - intros s. rewrite analyze_frequency_syllable. fold tokens. by rewrite Hall.
  - rewrite analyze_frequency_counted. simpl. fold tokens.
    by rewrite Hall, counted_keys.
  - intros w Hw. rewrite analyze_frequency_word, analyze_frequency_syllable.
    fold tokens. by rewrite Hall, decide_True.
Qed.

Lemma analyze_frequency_without_segmenter_witness :
  (syllable_segmenter (mkConverter (Some whitespace_tokenizer) None
                         [lit "man"] [] []) = None
   ∨ ∃ seg,
       syllable_segmenter (mkConverter (Some whitespace_tokenizer) None
                             [lit "man"] [] []) = Some seg
       ∧ ∀ token, seg token = None)
  ∧ Counter_keys
      (analyze_frequency
         (mkConverter (Some whitespace_tokenizer) None [lit "man"] [] [])
         [lit "men man men"]).2
    = first_seen ([lit "men man men"]
                    ≫= tokenize_text (mkConverter (Some whitespace_tokenizer)
                                        None [lit "man"] [] [])).
Proof.
  split; [by left|].
  apply (analyze_frequency_without_segmenter
           (mkConverter (Some whitespace_tokenizer) None [lit "man"] [] [])
           [lit "men man men"]).
  by left.
Defined.

Example analyze_frequency_order_run :
  analyze_frequency
    (mkConverter (Some whitespace_tokenizer) None [lit "man"] [] [])
    [lit "men man men"]
  = ([(lit "man", 1)], [(lit "men", 2); (lit "man", 1)]).
Proof. vm_compute. reflexivity. Qed.

(** ** The syllable entries *)

Lemma filter_fmap {A B} (f : A → B) (P : B → Prop) `{!∀ b, Decision (P b)}
    (l : list A) :
  filter P (f <$> l) = f <$> filter (λ a, P (f a)) l.
Proof.
  induction l as [|a l IH]; [done|].
  rewrite fmap_cons, !filter_cons, IH. by case_decide.
Qed.

Lemma sorted_fmap {A B} (f : A → B) (R : A → A → Prop) (R' : B → B → Prop)
    (l : list A) :
  (∀ a b, R a b → R' (f a) (f b)) →
  StronglySorted R l → StronglySorted R' (f <$> l).
Proof.
  intros HR. induction 1 as [|a l Hl IH Ha]; [constructor|].
  rewrite fmap_cons. constructor; [done|].
  apply Forall_fmap. eapply Forall_impl; [exact Ha|]. intros b. apply HR.
Qed.

Lemma sort_desc_sorted_id {A} (key : A → Z) (l : list A) :
  StronglySorted (λ a b, key b ≤ key a) l → sort_desc key l = l.
Proof.
  induction 1 as [|x l Hl IH Hx]; [done|].
  simpl. rewrite IH. destruct Hx as [|y l Hy _]; [done|].
  simpl. by rewrite decide_True.
Qed.

(** The entry [generate_syllable_data] makes of a counter item. *)
Abbreviation to_entry := (λ '(syllable, freq), mkSyllable syllable freq).

Lemma generate_syllable_data_perm sf :
  generate_syllable_data sf ≡ₚ to_entry <$> sf.
Proof.
  unfold generate_syllable_data. by rewrite sort_desc_Permutation.
Qed.

Lemma generate_syllable_data_keys sf :
  syllable <$> generate_syllable_data sf ≡ₚ Counter_keys sf.
Proof.
  rewrite generate_syllable_data_perm. unfold Counter_keys.
  rewrite <- list_fmap_compose.
  erewrite list_fmap_ext; [done|]. by intros _ [s n] _.
Qed.

Lemma generate_syllable_data_elem e sf :
  e ∈ generate_syllable_data sf ↔ (syllable e, sfrequency e) ∈ sf.
Proof.
  rewrite generate_syllable_data_perm, list_elem_of_fmap. split.
  - intros ([s n] & -> & Hin). done.
  - intros Hin. exists (syllable e, sfrequency e). split; [by destruct e|done].
Qed.

Lemma generate_syllable_data_sorted sf :
  StronglySorted (λ a b, sfrequency b ≤ sfrequency a) (generate_syllable_data sf).
Proof.
  unfold generate_syllable_data.
  eapply sorted_fmap; [|apply (sort_desc_sorted snd)].
  by intros [s n] [s' n'].
Qed.

(** X8: [generate_syllable_data] returns one entry per item of the counter,
    ordered by descending frequency with items of equal frequency in the
    counter's own (insertion) order; when the counter's keys are distinct, so
    are the syllable strings, and each entry carries the count of its
    syllable. *)
Theorem generate_syllable_data_entries sf :
  let data := generate_syllable_data sf in
  length data = length sf
  ∧ data ≡ₚ to_entry <$> sf
  ∧ StronglySorted (λ a b, sfrequency b ≤ sfrequency a) data
  ∧ (∀ n, filter (λ e, sfrequency e = n) data
          = to_entry <$> filter (λ item, item.2 = n) sf)
  ∧ (NoDup (Counter_keys sf) →
     NoDup (syllable <$> data)
     ∧ ∀ e, e ∈ data → sfrequency e = Counter_get (syllable e) sf).
Proof.
  cbn zeta. split_and!.
  - apply generate_syllable_data_length.
  - apply generate_syllable_data_perm.
  - apply generate_syllable_data_sorted.
  - intros n. unfold generate_syllable_data.
    rewrite filter_fmap.
    rewrite <- (sort_desc_stable snd sf n). f_equal.
    apply list_filter_iff. by intros [s m].
  - intros Hnd. split.
    + by rewrite generate_syllable_data_keys.
    + intros e He. apply generate_syllable_data_elem in He.
      symmetry. by apply Counter_get_entry.
Qed.

Lemma generate_syllable_data_entries_witness :
  NoDup (Counter_keys [(lit "men", 1); (lit "man", 2); (lit "mankind", 1)])
  ∧ NoDup (syllable <$> generate_syllable_data
             [(lit "men", 1); (lit "man", 2); (lit "mankind", 1)]).
Proof.
  assert (Hnd : NoDup (Counter_keys
                         [(lit "men", 1); (lit "man", 2); (lit "mankind", 1)])).
  { apply (bool_decide_unpack _). by vm_compute. }
  split; [exact Hnd|].
  pose proof (generate_syllable_data_entries
                [(lit "men", 1); (lit "man", 2); (lit "mankind", 1)]) as H.
  cbv zeta in H. destruct H as (_ & _ & _ & _ & H). by apply H.
Defined.

Example generate_syllable_data_run :
  generate_syllable_data [(lit "men", 1); (lit "man", 2); (lit "mankind", 1)]
  = [mkSyllable (lit "man") 2; mkSyllable (lit "men") 1;
     mkSyllable (lit "mankind") 1].
Proof. vm_compute. reflexivity. Qed.

(** ** The document of a run over a corpus *)

Lemma with_frequency_Permutation {A} (freq : A → Z) (l1 l2 : list A) :
  l1 ≡ₚ l2 → with_frequency freq l1 = with_frequency freq l2.
Proof. unfold with_frequency. by intros ->. Qed.

Lemma with_frequency_all {A} (freq : A → Z) (l : list A) :
  Forall (λ e, 0 < freq e) l → with_frequency freq l = len l.
Proof.
  unfold with_frequency, len. induction 1 as [|e l He Hl IH]; [done|].
  rewrite filter_cons, decide_True by done. simpl. lia.
Qed.

Lemma with_frequency_none {A} (freq : A → Z) (l : list A) :
  Forall (λ e, freq e ≤ 0) l → with_frequency freq l = 0.
Proof.
  unfold with_frequency. induction 1 as [|e l He Hl IH]; [done|].
  rewrite filter_cons, decide_False by lia. done.
Qed.

Lemma with_frequency_refreshed wf (ws : list (list N)) :
  with_frequency wfrequency (refreshed wf ((λ w, mkWord w 0) <$> ws))
  = len (filter (λ w, 0 < Counter_get w wf) ws).
Proof.
  unfold with_frequency, len, refreshed.
  rewrite <- list_fmap_compose, filter_fmap, length_fmap. done.
Qed.

Lemma filter_ext_in {A} (P Q : A → Prop)
    `{!∀ x, Decision (P x), !∀ x, Decision (Q x)} (l : list A) :
  (∀ x, x ∈ l → P x ↔ Q x) → filter P l = filter Q l.
Proof.
  induction l as [|x l IH]; intros Hext; [done|].
  rewrite !filter_cons, IH by (intros y Hy; apply Hext; by right).
  destruct (decide (P x)) as [HP|HP].
  - rewrite decide_True; [done|]. apply Hext; [left|done].
  - rewrite decide_False; [done|]. intros HQ. apply HP, Hext; [left|done].
Qed.

Section run_document.
Variable word_tokenize : list N → option (list (list N)).
Variable syllable_tokenize : list N → option (list (list N)).

Abbreviation loaded := (loaded word_tokenize syllable_tokenize).
Abbreviation run := (run_conversion word_tokenize syllable_tokenize).

(** The document of a run over a corpus, written out. *)
Lemma run_conversion_document self f dataset :
  stripped_lines f ≠ [] →
  dataset ≠ [] →
  let counts := analyze_frequency (loaded self f) dataset in
  let ws := sort_desc wfrequency
              (refreshed counts.1 ((λ w, mkWord w 0) <$> stripped_lines f)) in
  (run self (Some f) dataset).2
  = Some (mkResource
            (Some (<["total_syllables" := JInt (len counts.2)]>
                   (<["words_with_frequency" :=
                        JInt (with_frequency wfrequency ws)]>
                    (<["phase" := JStr "frequency_analysis_complete"]>
                     (<["total_words" := JInt (len (stripped_lines f))]>
                      (<["source" := JStr "dictionary.txt"]>
                       (<["phase" := JStr "basic_conversion"]> ∅)))))))
            (Some ws) (Some (generate_syllable_data counts.2))).
Proof.
  intros Hne Hd counts ws.
  destruct (run_conversion_with_corpus word_tokenize syllable_tokenize
              self f dataset Hne Hd) as (r & Hu & ->).
  erewrite update_json_unfold in Hu by reflexivity.
  cbn zeta in Hu. injection Hu as <-. done.
Qed.

Lemma run_conversion_syllables_aux self f dataset :
  stripped_lines f ≠ [] →
  dataset ≠ [] →
  let tokens := dataset ≫= tokenize_text (loaded self f) in
  let all_syllables := tokens ≫= counted_syllables (loaded self f) in
  ∃ r ss,
    (run self (Some f) dataset).2 = Some r
    ∧ syllables r = Some ss
    ∧ NoDup (syllable <$> ss)
    ∧ (∀ s, s ∈ syllable <$> ss ↔ s ∈ all_syllables)
    ∧ Forall (λ e, sfrequency e = count_of (syllable e) all_syllables
                   ∧ 0 < sfrequency e) ss
    ∧ StronglySorted (λ a b, sfrequency b ≤ sfrequency a) ss
    ∧ with_frequency sfrequency ss = len ss
    ∧ meta r "total_syllables" = Some (JInt (len (first_seen all_syllables)))
    ∧ meta r "words_with_frequency"
      = Some (JInt (len (filter (λ w, w ∈ tokens) (stripped_lines f)))).
Proof.
  intros Hne Hd tokens all_syllables.
  rewrite (run_conversion_document self f dataset Hne Hd). cbn zeta.
  eexists _, _. split; [reflexivity|]. split; [reflexivity|].
  rewrite analyze_frequency_counted. cbn [fst snd].
  fold tokens. fold all_syllables.
  assert (Hfreq : Forall (λ e, sfrequency e = count_of (syllable e) all_syllables
                               ∧ 0 < sfrequency e)
                         (generate_syllable_data (counted all_syllables))).
  { apply Forall_forall. intros e He.
    apply generate_syllable_data_elem in He.
    assert (Hget : Counter_get (syllable e) (counted all_syllables)
                   = sfrequency e)
      by (apply Counter_get_entry; [apply counted_NoDup|done]).
    rewrite counted_get in Hget. split; [done|].
    rewrite <- Hget. apply count_of_pos.
    apply counted_keys_elem. unfold Counter_keys.
    apply list_elem_of_fmap. by exists (syllable e, sfrequency e). }
  split_and!.
  - rewrite generate_syllable_data_keys. apply counted_NoDup.
  - intros s. rewrite generate_syllable_data_keys. apply counted_keys_elem.
  - exact Hfreq.
  - apply generate_syllable_data_sorted.
  - apply with_frequency_all. eapply Forall_impl; [exact Hfreq|]. by intros e [_ ?].
  - unfold meta. cbn [metadata mbind option_bind]. simplify_map_eq.
    do 2 f_equal. unfold len.
    rewrite <- counted_keys. unfold Counter_keys. by rewrite length_fmap.
  - unfold meta. cbn [metadata mbind option_bind]. simplify_map_eq.
    do 2 f_equal.
    rewrite (with_frequency_Permutation _ _ _ (sort_desc_Permutation _ _)).
    rewrite with_frequency_refreshed. unfold len. do 2 f_equal.
    apply filter_ext_in. intros w Hw.
    rewrite counted_get, count_of_pos, list_elem_of_filter. tauto.
Qed.
End run_document.

(** X9: in the document of a run over a corpus the syllable entries have
    distinct syllable strings, one for every syllable counted and no other;
    each carries the number of times its syllable was counted, which is at
    least 1; they are in descending order of frequency.  [total_syllables] is
    the number of distinct syllables counted and [words_with_frequency] the
    number of dictionary lines whose word occurs among the tokens. *)
Theorem run_conversion_syllables word_tokenize syllable_tokenize self f dataset :
  stripped_lines f ≠ [] →
  dataset ≠ [] →
  let self' := loaded word_tokenize syllable_tokenize self f in
  let tokens := dataset ≫= tokenize_text self' in
  let all_syllables := tokens ≫= counted_syllables self' in
  ∃ r ss,
    (run_conversion word_tokenize syllable_tokenize self (Some f) dataset).2
    = Some r
    ∧ syllables r = Some ss
    ∧ NoDup (syllable <$> ss)
    ∧ (∀ s, s ∈ syllable <$> ss ↔ s ∈ all_syllables)
    ∧ Forall (λ e, sfrequency e = count_of (syllable e) all_syllables
                   ∧ 0 < sfrequency e) ss
    ∧ StronglySorted (λ a b, sfrequency b ≤ sfrequency a) ss
    ∧ with_frequency sfrequency ss = len ss
    ∧ meta r "total_syllables" = Some (JInt (len (first_seen all_syllables)))
    ∧ meta r "words_with_frequency"
      = Some (JInt (len (filter (λ w, w ∈ tokens) (stripped_lines f)))).
Proof.
  intros Hne Hd. by apply run_conversion_syllables_aux.
Qed.

Lemma run_conversion_syllables_witness :
  (stripped_lines [lit "man"; lit "mankind"] ≠ []
   ∧ [lit "mankind man man"; lit "men"] ≠ [])
  ∧ ∃ r ss,
      (run_conversion whitespace_tokenizer whole_word_segmenter init
         (Some [lit "man"; lit "mankind"]) [lit "mankind man man"; lit "men"]).2
      = Some r
      ∧ syllables r = Some ss
      ∧ NoDup (syllable <$> ss)
      ∧ with_frequency sfrequency ss = len ss.
Proof.
  split; [split; by vm_compute|].
  destruct (run_conversion_syllables whitespace_tokenizer whole_word_segmenter
              init [lit "man"; lit "mankind"]
              [lit "mankind man man"; lit "men"])
    as (r & ss & Hr & Hs & Hnd & _ & _ & _ & Hw & _);
    [by vm_compute|by vm_compute|].
  exists r, ss. split; [exact Hr|]. split; [exact Hs|].
  split; [exact Hnd|exact Hw].
Defined.

(** ** Merging the counts again *)

Lemma refreshed_id wf l :
  Forall (λ e, wfrequency e = Counter_get (word e) wf) l → refreshed wf l = l.
Proof.
  unfold refreshed. induction 1 as [|[w n] l He Hl IH]; [done|].
  rewrite fmap_cons, IH. simpl in *. by rewrite <- He.
Qed.

Lemma merged_words_fixed wf ws :
  let ws' := sort_desc wfrequency (refreshed wf ws) in
  sort_desc wfrequency (refreshed wf ws') = ws'.
Proof.
  intros ws'. rewrite refreshed_id.
  - apply sort_desc_sorted_id, sort_desc_sorted.
  - subst ws'. rewrite sort_desc_Permutation. apply refreshed_frequency.
Qed.

(** X10: merging the same counters a second time changes nothing:
    [update_json_with_frequencies] applied to its own result returns that
    result. *)
Theorem update_json_with_frequencies_twice basic_json wf sf ws md :
  words basic_json = Some ws →
  metadata basic_json = Some md →
  ∃ r,
    update_json_with_frequencies basic_json wf sf = Some r
    ∧ update_json_with_frequencies r wf sf = Some r.
Proof.
  intros Hw Hm. rewrite (update_json_unfold _ wf sf _ _ Hw Hm). cbn zeta.
  eexists. split; [reflexivity|].
  erewrite update_json_unfold by reflexivity. cbn zeta.
  rewrite merged_words_fixed. do 2 f_equal.
  f_equal. apply map_eq. intros k.
  rewrite !lookup_insert. by repeat case_decide.
Qed.

Lemma update_json_with_frequencies_twice_witness :
  (words (create_basic_json [lit "a"; lit "man"])
   = Some [mkWord (lit "a") 0; mkWord (lit "man") 0]
   ∧ metadata (create_basic_json [lit "a"; lit "man"])
     = Some (<["total_words" := JInt 2]>
             (<["source" := JStr "dictionary.txt"]>
              (<["phase" := JStr "basic_conversion"]> ∅))))
  ∧ ∃ r,
      update_json_with_frequencies (create_basic_json [lit "a"; lit "man"])
        [(lit "man", 2)] [(lit "man", 2)] = Some r
      ∧ update_json_with_frequencies r [(lit "man", 2)] [(lit "man", 2)]
        = Some r.
Proof.
  split; [split; reflexivity|].
  apply (update_json_with_frequencies_twice
           (create_basic_json [lit "a"; lit "man"])
           [(lit "man", 2)] [(lit "man", 2)] _ _ eq_refl eq_refl).
Defined.

(** X11: when no word of the resource is a key of the word counter, the
    merge sets every frequency to 0, leaves the entries in the order they
    had, and records 0 words with a frequency. *)
Theorem update_json_with_frequencies_unseen basic_json wf sf ws md :
  words basic_json = Some ws →
  metadata basic_json = Some md →
  Forall (λ e, word e ∉ Counter_keys wf) ws →
  ∃ r,
    update_json_with_frequencies basic_json wf sf = Some r
    ∧ words r = Some ((λ e, mkWord (word e) 0) <$> ws)
    ∧ meta r "words_with_frequency" = Some (JInt 0).
Proof.
  intros Hw Hm Hun. rewrite (update_json_unfold _ wf sf _ _ Hw Hm). cbn zeta.
  eexists. split; [reflexivity|].
  assert (Hr : refreshed wf ws = (λ e, mkWord (word e) 0) <$> ws).
  { unfold refreshed. apply list_fmap_ext. intros i e Hi.
    rewrite Counter_get_absent; [done|].
    rewrite Forall_forall in Hun. apply Hun.
    by apply list_elem_of_lookup_2 in Hi. }
  assert (Hs : sort_desc wfrequency (refreshed wf ws) = refreshed wf ws).
  { apply sort_desc_sorted_id. rewrite Hr.
    eapply (sorted_fmap _ (λ _ _, True)); [by intros|].
    clear. induction ws; constructor; [done|by apply Forall_true]. }
  rewrite Hs, Hr. split; [done|].
  unfold meta. cbn [metadata mbind option_bind]. simplify_map_eq.
  do 2 f_equal. apply with_frequency_none, Forall_fmap.
  by apply Forall_true.
Qed.

Lemma update_json_with_frequencies_unseen_witness :
  (words (create_basic_json [lit "a"; lit "man"])
   = Some [mkWord (lit "a") 0; mkWord (lit "man") 0]
   ∧ metadata (create_basic_json [lit "a"; lit "man"])
     = Some (<["total_words" := JInt 2]>
             (<["source" := JStr "dictionary.txt"]>
              (<["phase" := JStr "basic_conversion"]> ∅)))
   ∧ Forall (λ e, word e ∉ Counter_keys [(lit "men", 3)])
            [mkWord (lit "a") 0; mkWord (lit "man") 0])
  ∧ ∃ r,
      update_json_with_frequencies (create_basic_json [lit "a"; lit "man"])
        [(lit "men", 3)] [(lit "men", 3)] = Some r
      ∧ words r = Some [mkWord (lit "a") 0; mkWord (lit "man") 0].
Proof.
  assert (Hun : Forall (λ e, word e ∉ Counter_keys [(lit "men", 3)])
                       [mkWord (lit "a") 0; mkWord (lit "man") 0]).
  { apply (bool_decide_unpack _). by vm_compute. }
  split; [split_and!; [reflexivity|reflexivity|exact Hun]|].
  destruct (update_json_with_frequencies_unseen
              (create_basic_json [lit "a"; lit "man"])
              [(lit "men", 3)] [(lit "men", 3)] _ _ eq_refl eq_refl Hun)
    as (r & Hr & Hws & _).
  exists r. split; [exact Hr|exact Hws].
Defined.

(** ** More on the dictionary filter *)

Section filter_more.
Variable lower : list N → list N.

Abbreviation filter_by := (filter_syllables_by_dictionary lower).

Lemma kept_intersection (d1 d2 : gset (list N)) (l : list SyllableEntry) :
  filter (kept lower d2) (filter (kept lower d1) l)
  = filter (kept lower (d1 ∩ d2)) l.
Proof.
  rewrite list_filter_filter. apply list_filter_iff.
  intros e. unfold kept. rewrite elem_of_intersection. tauto.
Qed.

Lemma filter_compose (json_data : Resource) (d1 d2 : gset (list N)) :
  filter_by (filter_by json_data d1) d2 = filter_by json_data (d1 ∩ d2).
Proof.
  destruct (syllables json_data) as [syls|] eqn:Hs.
  - rewrite (filter_syllables_unfold _ d1 _ _ Hs).
    rewrite (filter_syllables_unfold _ (d1 ∩ d2) _ _ Hs). cbn zeta.
    erewrite filter_syllables_unfold by reflexivity. simpl.
    rewrite kept_intersection. f_equal.
    destruct (metadata json_data) as [md|]; [simpl|done].
    f_equal. apply map_eq. intros k.
    rewrite !lookup_insert. by repeat case_decide.
  - rewrite (filter_syllables_absent _ json_data d1 Hs).
    by rewrite !filter_syllables_absent.
Qed.
End filter_more.

(** X12: filtering with one dictionary set and then with another gives the
    document that filtering once with their intersection gives; so the order
    of two filters does not matter. *)
Theorem filter_syllables_compose (lower : list N → list N)
    (json_data : Resource)
    (d1 d2 : gset (list N)) :
  filter_syllables_by_dictionary lower
    (filter_syllables_by_dictionary lower json_data d1) d2
  = filter_syllables_by_dictionary lower json_data (d1 ∩ d2)
  ∧ filter_syllables_by_dictionary lower
      (filter_syllables_by_dictionary lower json_data d1) d2
    = filter_syllables_by_dictionary lower
        (filter_syllables_by_dictionary lower json_data d2) d1.
Proof.
  split; [apply filter_compose|].
  rewrite !filter_compose. f_equal. apply (comm_L (∩)).
Qed.



(** X14: a larger dictionary set keeps at least what a smaller one keeps:
    the entries kept under [d1 ⊆ d2] are the entries kept under [d2] that
    also pass the test of [d1], in the same order. *)
Theorem filter_monotone (lower : list N → list N) (json_data : Resource)
    (d1 d2 : gset (list N)) syls :
  syllables json_data = Some syls →
  d1 ⊆ d2 →
  ∃ ss1 ss2,
    syllables (filter_syllables_by_dictionary lower json_data d1) = Some ss1
    ∧ syllables (filter_syllables_by_dictionary lower json_data d2) = Some ss2
    ∧ ss1 = filter (kept lower d1) ss2
    ∧ ss1 `sublist_of` ss2
    ∧ (length ss1 ≤ length ss2)%nat.
Proof.
  intros Hs Hsub.
  rewrite !(filter_syllables_unfold _ _ _ _ Hs). cbn zeta.
  eexists _, _. split; [reflexivity|]. split; [reflexivity|].
  assert (Heq : filter (kept lower d1) syls
                = filter (kept lower d1) (filter (kept lower d2) syls)).
  { rewrite list_filter_filter. apply list_filter_iff.
    intros e. unfold kept. split; [|tauto].
    intros Hin. split; [done|]. by apply Hsub. }
  split_and!.
  - exact Heq.
  - rewrite Heq. apply sublist_filter.
  - rewrite Heq. apply length_filter.
Qed.

Lemma filter_monotone_witness :
  (syllables scenario_resource
   = Some [mkSyllable (lit "abc") 5; mkSyllable (lit "xyz") 0]
   ∧ ({[lit "abc"]} : gset (list N)) ⊆ {[lit "abc"; lit "xyz"]})
  ∧ ∃ ss1 ss2,
      syllables (filter_syllables_by_dictionary ascii_lower scenario_resource
                   {[lit "abc"]}) = Some ss1
      ∧ syllables (filter_syllables_by_dictionary ascii_lower scenario_resource
                     {[lit "abc"; lit "xyz"]}) = Some ss2
      ∧ ss1 `sublist_of` ss2.
Proof.
  assert (Hsub : ({[lit "abc"]} : gset (list N)) ⊆ {[lit "abc"; lit "xyz"]}).
  { apply (bool_decide_unpack _). by vm_compute. }
  split; [split; [reflexivity|exact Hsub]|].
  destruct (filter_monotone ascii_lower scenario_resource {[lit "abc"]}
              {[lit "abc"; lit "xyz"]}
              [mkSyllable (lit "abc") 5; mkSyllable (lit "xyz") 0]
              eq_refl Hsub)
    as (ss1 & ss2 & H1 & H2 & _ & Hl & _).
  exists ss1, ss2. split; [exact H1|]. split; [exact H2|exact Hl].
Defined.

(** ** The converter followed by the filter *)

(** X15: filtering the document of a run, with or without a corpus, gives a
    document in which all four counters agree with the entries:
    [total_words] and [words_with_frequency] with the words, which are those
    of the run, and [total_syllables] with the kept syllables; and since every
    syllable of a run has a positive count, [syllables_with_frequency] equals
    [total_syllables].  The phase is [dictionary_filtered] and the source is
    still recorded. *)
Theorem run_then_filter (lower : list N → list N)
    (word_tokenize syllable_tokenize : list N → option (list (list N)))
    (self : Converter) (f dataset : list (list N)) (d : gset (list N)) :
  stripped_lines f ≠ [] →
  ∃ r ws ss,
    (run_conversion word_tokenize syllable_tokenize self (Some f) dataset).2
    = Some r
    ∧ words r = Some ws
    ∧ words (filter_syllables_by_dictionary lower r d) = Some ws
    ∧ syllables (filter_syllables_by_dictionary lower r d) = Some ss
    ∧ meta (filter_syllables_by_dictionary lower r d) "total_words"
      = Some (JInt (len ws))
    ∧ meta (filter_syllables_by_dictionary lower r d) "words_with_frequency"
      = Some (JInt (with_frequency wfrequency ws))
    ∧ meta (filter_syllables_by_dictionary lower r d) "total_syllables"
      = Some (JInt (len ss))
    ∧ meta (filter_syllables_by_dictionary lower r d) "syllables_with_frequency"
      = Some (JInt (len ss))
    ∧ meta (filter_syllables_by_dictionary lower r d) "phase"
      = Some (JStr "dictionary_filtered")
    ∧ meta (filter_syllables_by_dictionary lower r d) "source"
      = Some (JStr "dictionary.txt").
Proof.
  intros Hne. destruct dataset as [|t ts].
  - rewrite run_conversion_no_corpus by done.
    eexists _, _, _. split; [reflexivity|]. split; [reflexivity|].
    erewrite filter_syllables_unfold by reflexivity. cbn zeta.
    unfold meta. cbn [metadata words syllables create_basic_json].
    cbn [fmap option_fmap option_map mbind option_bind default].
    rewrite filter_nil.
    split_and!; by simplify_map_eq.
  - destruct (run_conversion_syllables_aux word_tokenize syllable_tokenize
                self f (t :: ts) Hne) as
      (r & ss & Hr & Hs & _ & _ & Hfreq & _); [done|].
    rewrite Hr.
    rewrite (run_conversion_document word_tokenize syllable_tokenize
               self f (t :: ts) Hne) in Hr by done.
    cbn zeta in Hr. injection Hr as <-. cbn [syllables] in Hs.
    injection Hs as <-.
    eexists _, _, _. split; [reflexivity|]. split; [reflexivity|].
    erewrite filter_syllables_unfold by reflexivity. cbn zeta.
    unfold meta. cbn [metadata words syllables].
    cbn [fmap option_fmap option_map mbind option_bind default].
    split_and!; simplify_map_eq; try done.
    do 2 f_equal. apply with_frequency_all.
    apply Forall_forall. intros e He.
    apply list_elem_of_filter in He as [_ He].
    rewrite Forall_forall in Hfreq. by apply Hfreq in He as [_ ?].
Qed.

Lemma run_then_filter_witness :
  stripped_lines [lit "man"; lit "mankind"] ≠ []
  ∧ ∃ r ss,
      (run_conversion whitespace_tokenizer whole_word_segmenter init
         (Some [lit "man"; lit "mankind"]) [lit "mankind man man"; lit "men"]).2
      = Some r
      ∧ syllables (filter_syllables_by_dictionary ascii_lower r
                     {[lit "man"; lit "mankind"]}) = Some ss
      ∧ meta (filter_syllables_by_dictionary ascii_lower r
                {[lit "man"; lit "mankind"]}) "syllables_with_frequency"
        = Some (JInt (len ss)).
Proof.
  split; [by vm_compute|].
  destruct (run_then_filter ascii_lower whitespace_tokenizer
              whole_word_segmenter init [lit "man"; lit "mankind"]
              [lit "mankind man man"; lit "men"] {[lit "man"; lit "mankind"]})
    as (r & ws & ss & Hr & _ & _ & Hs & _ & _ & _ & Hf & _);
    [by vm_compute|].
  exists r, ss. split; [exact Hr|]. split; [exact Hs|exact Hf].
Defined.

Example run_then_filter_run :
  ∃ r,
    (run_conversion whitespace_tokenizer whole_word_segmenter init
       (Some [lit "man"; lit "mankind"]) [lit "mankind man man"; lit "men"]).2
    = Some r
    ∧ syllables (filter_syllables_by_dictionary ascii_lower r
                   {[lit "man"; lit "mankind"]})
      = Some [mkSyllable (lit "man") 2; mkSyllable (lit "mankind") 1]
    ∧ removed_syllables ascii_lower r {[lit "man"; lit "mankind"]}
      = [mkSyllable (lit "men") 1].
Proof.
  eexists. split; [vm_compute; reflexivity|]. split; by vm_compute.
Qed.

(** ** [main] of the filter script *)

Lemma filter_none {A} (P : A → Prop) `{!∀ x, Decision (P x)} (l : list A) :
  Forall (λ x, ¬ P x) l → filter P l = [].
Proof.
  induction 1 as [|x l Hx Hl IH]; [done|].
  by rewrite filter_cons, decide_False.
Qed.

Lemma load_dictionary_set_blank lower (lines : list (list N)) :
  Forall (λ line, strip line = []) lines →
  load_dictionary_set lower (Some lines) = Some ∅.
Proof.
  intros Hb. simpl. rewrite filter_none; [done|].
  eapply Forall_impl; [exact Hb|]. intros line Hl Hne. by apply Hne.
Qed.

(** X16: [main] of the filter script writes a document exactly when the
    JSON file could be parsed and the dictionary file could be read, and the
    document is then the filter of the parsed one; run again on its own output
    with the same dictionary file, it writes that output unchanged. *)
Theorem filter_main_output (lower : list N → list N) (json_file : JsonFile)
    (dictionary_file : option (list (list N))) :
  (is_Some (filter_main lower json_file dictionary_file)
   ↔ (∃ json_data, json_file = JsonLoaded json_data) ∧ is_Some dictionary_file)
  ∧ (∀ json_data lines,
       json_file = JsonLoaded json_data →
       dictionary_file = Some lines →
       ∃ d,
         load_dictionary_set lower dictionary_file = Some d
         ∧ filter_main lower json_file dictionary_file
           = Some (filter_syllables_by_dictionary lower json_data d))
  ∧ (∀ out,
       filter_main lower json_file dictionary_file = Some out →
       filter_main lower (JsonLoaded out) dictionary_file = Some out).
Proof.
  split_and!.
  - destruct json_file as [| |json_data], dictionary_file as [lines|]; simpl;
      (split; [intros Hs|intros [[r Hr] Hd]]);
      try (by destruct Hs); try done; try (by destruct Hd).
    split; by eexists.
  - intros json_data lines -> ->. simpl. eexists. split; reflexivity.
  - intros out.
    destruct json_file as [| |json_data], dictionary_file as [lines|];
      simpl; try done.
    intros [= <-]. by rewrite filter_compose, (idemp_L (∩)).
Qed.

(** X17: a dictionary file that is empty or holds only blank lines is not
    an error for the filter script: the dictionary set is empty, so every
    syllable entry is removed and, where there is metadata, both syllable
    counters become 0, while the words stay.  The converter, given the same
    file, stops without writing anything. *)
Theorem filter_main_blank_dictionary (lower : list N → list N)
    (json_data : Resource) (lines : list (list N)) syls :
  Forall (λ line, strip line = []) lines →
  syllables json_data = Some syls →
  ∃ out,
    filter_main lower (JsonLoaded json_data) (Some lines) = Some out
    ∧ syllables out = Some []
    ∧ words out = words json_data
    ∧ removed_syllables lower json_data ∅ = syls
    ∧ (is_Some (metadata json_data) →
       meta out "total_syllables" = Some (JInt 0)
       ∧ meta out "syllables_with_frequency" = Some (JInt 0))
    ∧ (∀ word_tokenize syllable_tokenize self dataset,
         (run_conversion word_tokenize syllable_tokenize self (Some lines)
            dataset).2 = None).
Proof.
  intros Hb Hs. unfold filter_main.
  rewrite (load_dictionary_set_blank lower lines Hb).
  eexists. split; [reflexivity|].
  assert (Hk : filter (kept lower ∅) syls = []).
  { apply filter_none, Forall_forall. intros e _. unfold kept. set_solver. }
  rewrite (filter_syllables_unfold _ _ _ _ Hs). cbn zeta. rewrite Hk.
  split_and!; try done.
  - unfold removed_syllables. rewrite Hs, partition_syllables_filter. simpl.
    clear. induction syls as [|e l IH]; [done|].
    rewrite filter_cons, decide_True, IH; [done|]. unfold kept. set_solver.
  - intros [md Hm]. unfold meta. cbn [metadata]. rewrite Hm.
    cbn [fmap option_fmap option_map mbind option_bind].
    split; by simplify_map_eq.
  - intros word_tokenize syllable_tokenize self dataset.
    apply run_conversion_no_words. simpl. unfold stripped_lines.
    rewrite filter_none; [done|].
    eapply Forall_impl; [exact Hb|]. intros line Hl Hne. by apply Hne.
Qed.

Lemma filter_main_blank_dictionary_witness :
  (Forall (λ line, strip line = []) [lit "  "; lit ""]
   ∧ syllables scenario_resource
     = Some [mkSyllable (lit "abc") 5; mkSyllable (lit "xyz") 0])
  ∧ ∃ out,
      filter_main ascii_lower (JsonLoaded scenario_resource)
        (Some [lit "  "; lit ""]) = Some out
      ∧ syllables out = Some [].
Proof.
  assert (Hb : Forall (λ line, strip line = []) [lit "  "; lit ""]).
  { apply (bool_decide_unpack _). by vm_compute. }
  split; [split; [exact Hb|reflexivity]|].
  destruct (filter_main_blank_dictionary ascii_lower scenario_resource
              [lit "  "; lit ""]
              [mkSyllable (lit "abc") 5; mkSyllable (lit "xyz") 0] Hb eq_refl)
    as (out & Ho & Hs & _).
  exists out. split; [exact Ho|exact Hs].
Defined.

(** ** The summary of a run *)

Lemma print_summary_some data md tw ws ss :
  metadata data = Some md →
  md !! "total_words" = Some tw →
  words data = Some ws →
  syllables data = Some ss →
  print_summary data
  = Some (mkSummary tw (default (JInt 0) (md !! "words_with_frequency"))
                    (default (JInt 0) (md !! "total_syllables"))
                    (take 5 ws) (take 5 ss)).
Proof.
  intros Hm Ht Hw Hs. unfold print_summary. rewrite Hm. simpl.
  rewrite Ht. simpl. by rewrite Hw, Hs.
Qed.

(** X18: [print_summary] finds every key it reads in the document of a
    run.  It reports the number of dictionary words and the first five words
    and syllables at most; for a run without corpus, where the two other
    counters were never written, it reports 0 words with a frequency, 0
    syllables and no syllable, and for a run over a corpus the two counters of
    the document.  On a document without metadata, [total_words], words or
    syllables it raises instead. *)
Theorem print_summary_of_run
    (word_tokenize syllable_tokenize : list N → option (list (list N)))
    (self : Converter) (f dataset : list (list N)) :
  stripped_lines f ≠ [] →
  (∃ r s ws ss,
     (run_conversion word_tokenize syllable_tokenize self (Some f) dataset).2
     = Some r
     ∧ words r = Some ws
     ∧ syllables r = Some ss
     ∧ print_summary r = Some s
     ∧ summary_total_words s = JInt (len (stripped_lines f))
     ∧ summary_top_words s = take 5 ws
     ∧ summary_top_syllables s = take 5 ss
     ∧ (dataset = [] →
        summary_words_with_frequency s = JInt 0
        ∧ summary_total_syllables s = JInt 0
        ∧ summary_top_syllables s = [])
     ∧ (dataset ≠ [] →
        summary_words_with_frequency s = JInt (with_frequency wfrequency ws)
        ∧ summary_total_syllables s = JInt (len ss)))
  ∧ (∀ data,
       print_summary data = None
       ↔ meta data "total_words" = None
         ∨ words data = None ∨ syllables data = None).
Proof.
  intros Hne. split.
  - destruct dataset as [|t ts].
    + rewrite run_conversion_no_corpus by done.
      eexists _, _, _, _. split; [reflexivity|].
      split; [reflexivity|]. split; [reflexivity|].
      split.
      { eapply (print_summary_some _ _ (JInt (len (stripped_lines f))));
          [reflexivity|by simplify_map_eq|reflexivity|reflexivity]. }
      cbn [summary_total_words summary_top_words summary_top_syllables
           summary_words_with_frequency summary_total_syllables].
      split_and!; done.
    + rewrite (run_conversion_document word_tokenize syllable_tokenize
                 self f (t :: ts)) by done.
      cbn zeta.
      eexists _, _, _, _. split; [reflexivity|].
      split; [reflexivity|]. split; [reflexivity|].
      split.
      { eapply (print_summary_some _ _ (JInt (len (stripped_lines f))));
          [reflexivity|by simplify_map_eq|reflexivity|reflexivity]. }
      cbn [summary_total_words summary_top_words summary_top_syllables
           summary_words_with_frequency summary_total_syllables].
      split_and!; try done.
      intros _. simplify_map_eq. split; [done|].
      unfold len. by rewrite generate_syllable_data_length.
  - intros [md ws ss]. unfold print_summary, meta. simpl.
    destruct md as [md|]; simpl; [|by split; [left|]].
    destruct (md !! "total_words"); simpl; [|by split; [left|]].
    destruct ws; simpl; [|by split; [right; left|]].
    destruct ss; simpl; [|by split; [right; right|]].
    split; [done|]. by intros [|[|]].
Qed.

Lemma print_summary_of_run_witness :
  stripped_lines [lit "man"] ≠ []
  ∧ ∃ r s,
      (run_conversion whitespace_tokenizer whole_word_segmenter init
         (Some [lit "man"]) []).2 = Some r
      ∧ print_summary r = Some s
      ∧ summary_total_words s = JInt (len (stripped_lines [lit "man"])).
Proof.
  split; [by vm_compute|].
  destruct (print_summary_of_run whitespace_tokenizer whole_word_segmenter
              init [lit "man"] []) as [(r & s & ws & ss & Hr & _ & _ & Hp & Ht & _) _];
    [by vm_compute|].
  exists r, s. split; [exact Hr|]. split; [exact Hp|exact Ht].
Defined.

(** ** Reading the corpus *)

(** The texts of one record, when it has both keys. *)
Abbreviation item_texts := (λ item : Item, [title item; content item]).

Lemma append_items_none items : foldl append_item None items = None.
Proof. induction items; [done|]. done. Qed.

Lemma append_items_incomplete texts items item :
  item ∈ items →
  title item = None ∨ content item = None →
  foldl append_item texts items = None.
Proof.
  intros Hin Hmiss. revert texts.
  induction Hin as [item items|item item' items Hin IH]; intros texts; simpl.
  - assert (Hnone : append_item texts item = None).
    { unfold append_item. destruct texts as [texts|]; [simpl|done].
      destruct Hmiss as [Ht|Hc]; [by rewrite Ht|].
      rewrite Hc. by destruct (title item). }
    rewrite Hnone. apply append_items_none.
  - by apply IH.
Qed.

Lemma append_items_complete acc items :
  Forall (λ item, is_Some (title item) ∧ is_Some (content item)) items →
  ∃ texts,
    foldl append_item (Some acc) items = Some (acc ++ texts)
    ∧ Some <$> texts = items ≫= item_texts.
Proof.
  intros Hall. revert acc.
  induction Hall as [|item items [[t Ht] [c Hc]] Hall IH]; intros acc.
  - exists []. by rewrite app_nil_r.
  - cbn [foldl].
    assert (append_item (Some acc) item = Some (acc ++ [t; c])) as ->
      by (unfold append_item; simpl; by rewrite Ht, Hc).
    destruct (IH (acc ++ [t; c])) as (texts & Hf & Hs).
    exists (t :: c :: texts). split.
    + rewrite Hf. by rewrite <- app_assoc.
    + rewrite bind_cons, !fmap_cons, Hs, Ht, Hc. done.
Qed.

Lemma append_splits_none (splits : list (string * list Item)) :
  foldl (λ texts split, foldl append_item texts split.2) None splits = None.
Proof.
  induction splits as [|split splits IH]; [done|].
  simpl. by rewrite append_items_none.
Qed.

Lemma append_splits_incomplete texts (splits : list (string * list Item))
    split item :
  split ∈ splits →
  item ∈ split.2 →
  title item = None ∨ content item = None →
  foldl (λ texts split, foldl append_item texts split.2) texts splits = None.
Proof.
  intros Hin Hitem Hmiss. revert texts.
  induction Hin as [split splits|split split' splits Hin IH]; intros texts; simpl.
  - rewrite (append_items_incomplete texts _ item Hitem Hmiss).
    apply append_splits_none.
  - by apply IH.
Qed.

Lemma append_splits_complete acc (splits : list (string * list Item)) :
  Forall (λ split, Forall (λ item, is_Some (title item) ∧ is_Some (content item))
                          split.2) splits →
  ∃ texts,
    foldl (λ texts split, foldl append_item texts split.2) (Some acc) splits
    = Some (acc ++ texts)
    ∧ Some <$> texts = (splits ≫= snd) ≫= item_texts.
Proof.
  intros Hall. revert acc.
  induction Hall as [|split splits Hsplit Hall IH]; intros acc.
  - exists []. by rewrite app_nil_r.
  - cbn [foldl].
    destruct (append_items_complete acc split.2 Hsplit) as (ts & -> & Hts).
    destruct (IH (acc ++ ts)) as (texts & Hf & Hs).
    exists (ts ++ texts). split.
    + rewrite Hf. by rewrite <- app_assoc.
    + rewrite bind_cons, bind_app, fmap_app, Hts, Hs. done.
Qed.

Lemma item_texts_length (items : list Item) :
  length (items ≫= item_texts) = (2 * length items)%nat.
Proof.
  induction items as [|item items IH]; [done|].
  rewrite bind_cons, length_app, IH. simpl. lia.
Qed.

(** X19: [load_shan_news_dataset] returns, split after split and record
    after record, the title and then the content of every record, two texts
    per record.  If the dataset cannot be loaded, or if a single record lacks
    its title or its content, it returns no text at all, and a run with a
    dictionary then saves the skeleton without any frequency. *)
Theorem load_shan_news_dataset_texts (splits : list (string * list Item)) :
  load_shan_news_dataset None = []
  ∧ (Forall (λ split, Forall (λ item, is_Some (title item)
                                      ∧ is_Some (content item)) split.2) splits →
     Some <$> load_shan_news_dataset (Some splits)
     = (splits ≫= snd) ≫= item_texts
     ∧ length (load_shan_news_dataset (Some splits))
       = (2 * length (splits ≫= snd))%nat)
  ∧ (∀ split item,
       split ∈ splits →
       item ∈ split.2 →
       title item = None ∨ content item = None →
       load_shan_news_dataset (Some splits) = []
       ∧ ∀ word_tokenize syllable_tokenize self f,
           stripped_lines f ≠ [] →
           (run_conversion word_tokenize syllable_tokenize self (Some f)
              (load_shan_news_dataset (Some splits))).2
           = Some (create_basic_json (stripped_lines f))).
Proof.
  split_and!.
  - done.
  - intros Hall. unfold load_shan_news_dataset.
    destruct (append_splits_complete [] splits Hall) as (texts & -> & Hs).
    simpl. split; [done|].
    rewrite <- (length_fmap Some), Hs. apply item_texts_length.
  - intros split item Hin Hitem Hmiss.
    assert (Hnil : load_shan_news_dataset (Some splits) = []).
    { unfold load_shan_news_dataset.
      by rewrite (append_splits_incomplete _ _ split item Hin Hitem Hmiss). }
    split; [done|].
    intros word_tokenize syllable_tokenize self f Hne.
    rewrite Hnil. by apply run_conversion_no_corpus.
Qed.

Example load_shan_news_dataset_run :
  load_shan_news_dataset
    (Some [("train"%string, [mkItem (Some (lit "a")) (Some (lit "b"))]);
           ("test"%string, [mkItem (Some (lit "c")) (Some (lit "d"))])])
  = [lit "a"; lit "b"; lit "c"; lit "d"]
  ∧ load_shan_news_dataset
      (Some [("train"%string, [mkItem (Some (lit "a")) (Some (lit "b"))]);
             ("test"%string, [mkItem (Some (lit "c")) None])])
    = [].
Proof. split; reflexivity. Qed.
